(** * RentRelief: the Gemini analysis service (src/lib/geminiService.ts)
    and the risk-level table of the results view
    (src/components/AnalysisResults.tsx), embedded as Rocq functions.

    Conventions of the embedding.
    - A JavaScript string is the list of its UTF-16 code units ([jsstring]).
      Constants of the source (labels, error codes, messages) are Rocq
      strings; [lit] turns one into code units.
    - A JavaScript value coming out of [JSON.parse] is a [jsvalue]; reading a
      property that is not there gives [VUndefined].
    - A function that can throw returns a [Completion]: the value it
      returns or the exception it throws.
    - The remote model is an oracle: what [generateContent] followed by
      [response.text()] does on the n-th attempt.  Calls that leave the
      function (the request, the warning, the sleep) are recorded in a
      trace, in program order. *)

From Stdlib Require Import String Ascii List ZArith NArith Bool Lia.

From Stdlib Require Import DecimalString.

Import ListNotations.

Local Open Scope N_scope.

(** ** Strings as UTF-16 code units *)

Definition jsstring := list N.

Definition lit (s : string) : jsstring :=
  map N_of_ascii (list_ascii_of_string s).

(** [quoted q s] is [lit s] with every [q] turned into a double quote
    (code unit 34), to write texts that contain double quotes. *)
Definition quoted (q : ascii) (s : string) : jsstring :=
  map (fun c => if c =? N_of_ascii q then 34 else c) (lit s).

(** JSON texts are written with single quotes standing for double quotes. *)
Definition json (s : string) : jsstring := quoted "'"%char s.

Fixpoint jsstring_eqb (a b : jsstring) : bool :=
  match a, b with
  | [], [] => true
  | x :: a', y :: b' => (x =? y) && jsstring_eqb a' b'
  | _, _ => false
  end.

(** [String.prototype.startsWith]. *)
Fixpoint startsWith (s prefix : jsstring) {struct prefix} : bool :=
  match prefix, s with
  | [], _ => true
  | p :: prefix', c :: s' => (c =? p) && startsWith s' prefix'
  | _ :: _, [] => false
  end.

(** ECMAScript WhiteSpace and LineTerminator code points: what
    [String.prototype.trim] removes and what [\s] matches. *)
Definition isWhiteSpace (c : N) : bool :=
  (c =? 9) || (c =? 10) || (c =? 11) || (c =? 12) || (c =? 13) || (c =? 32)
  || (c =? 160) || (c =? 5760) || ((8192 <=? c) && (c <=? 8202))
  || (c =? 8232) || (c =? 8233) || (c =? 8239) || (c =? 8287)
  || (c =? 12288) || (c =? 65279).

Fixpoint trimStart (s : jsstring) : jsstring :=
  match s with
  | c :: s' => if isWhiteSpace c then trimStart s' else s
  | [] => []
  end.

Definition trimEnd (s : jsstring) : jsstring := rev (trimStart (rev s)).

(** [String.prototype.trim]. *)
Definition trim (s : jsstring) : jsstring := trimEnd (trimStart s).

(** [String.prototype.slice(0, n)]: the first [n] code units. *)
Fixpoint slice0 (n : N) (s : jsstring) : jsstring :=
  match s with
  | [] => []
  | c :: s' => if n =? 0 then [] else c :: slice0 (N.pred n) s'
  end.

Definition strlen (s : jsstring) : Z := Z.of_nat (length s).

(** [s.replace(/^PREFIX\s*/, '')] for a literal [PREFIX]: when [s] starts
    with the prefix, the prefix and the white space after it are removed;
    a string that does not match is left as it is. *)
Definition removePrefixWs (prefix s : jsstring) : jsstring :=
  if startsWith s prefix then trimStart (skipn (length prefix) s) else s.

Definition backquotes3 : jsstring := [96; 96; 96].

(** [s.replace(/\s*```$/, '')].  The pattern is anchored at the end of the
    string (no [m] flag), so it matches only a final run of three back
    quotes together with all the white space before it; the leftmost match
    starts at the beginning of that white space. *)
Definition removeWsSuffixFence (s : jsstring) : jsstring :=
  if startsWith (rev s) backquotes3 then trimEnd (rev (skipn 3 (rev s)))
  else s.

(** ** JavaScript values *)

#[local] Set Warnings "-register-all".

(** A number that [JSON.parse] read is kept as the decimal it was written
    as, [mantissa * 10 ^ exponent]; the double it denotes is the nearest
    one (round to nearest, ties to even).  The three tests the program
    makes on numbers are given below on that representation. *)
Inductive jsvalue : Type :=
| VUndefined
| VNull
| VBool (b : bool)
| VNum (mantissa exponent : Z)
| VStr (s : jsstring)
| VArr (elements : list jsvalue)
| VObj (properties : list (jsstring * jsvalue)).

Local Open Scope Z_scope.

(** The double nearest to [m * 10 ^ e] is [+0] or [-0]: the decimal is
    zero, or so small that it rounds to zero ([|x| <= 2 ^ -1075], half the
    least subnormal, the tie going to the even 0). *)
Definition numIsZero (m e : Z) : bool :=
  (m =? 0) || ((e <? 0) && (Z.abs m * 2 ^ 1075 <=? 10 ^ (- e))).

(** [x < 0] on the double. *)
Definition numLt0 (m e : Z) : bool := (m <? 0) && negb (numIsZero m e).

(** [x > 100] on the double: the decimal lies above [100 + 2 ^ -47], the
    midpoint between 100 and the next double (the tie goes to 100). *)
Definition numGt100 (m e : Z) : bool :=
  if 0 <=? e then 100 <? m * 10 ^ e
  else (100 * 2 ^ 47 + 1) * 10 ^ (- e) <? m * 2 ^ 47.

(** [ToBoolean]. *)
Definition truthy (v : jsvalue) : bool :=
  match v with
  | VUndefined | VNull => false
  | VBool b => b
  | VNum m e => negb (numIsZero m e)
  | VStr s => match s with [] => false | _ :: _ => true end
  | VArr _ | VObj _ => true
  end.

(** The [typeof] operator. *)
Definition typeof (v : jsvalue) : string :=
  match v with
  | VUndefined => "undefined"
  | VNull | VArr _ | VObj _ => "object"
  | VBool _ => "boolean"
  | VNum _ _ => "number"
  | VStr _ => "string"
  end.

Definition isArray (v : jsvalue) : bool :=
  match v with VArr _ => true | _ => false end.

(** When a JSON text repeats a key, the last occurrence is the property's
    value. *)
Fixpoint lookupLast (k : jsstring) (props : list (jsstring * jsvalue))
  : option jsvalue :=
  match props with
  | [] => None
  | (k', v) :: rest =>
      match lookupLast k rest with
      | Some v' => Some v'
      | None => if jsstring_eqb k' k then Some v else None
      end
  end.

(** [v.name], for the property names this program reads (none of them is
    an index, [length] or a name of a built-in prototype), on a value that
    is neither [null] nor [undefined]: only an object can have it. *)
Definition get (v : jsvalue) (name : string) : jsvalue :=
  match v with
  | VObj props =>
      match lookupLast (lit name) props with
      | Some x => x
      | None => VUndefined
      end
  | _ => VUndefined
  end.

(** ** JSON.parse (ECMA-404 grammar) *)

Local Open Scope N_scope.

Definition isJsonWs (c : N) : bool :=
  (c =? 32) || (c =? 9) || (c =? 10) || (c =? 13).

Fixpoint skipWs (s : jsstring) : jsstring :=
  match s with
  | c :: s' => if isJsonWs c then skipWs s' else s
  | [] => []
  end.

Definition isDigit (c : N) : bool := (48 <=? c) && (c <=? 57).

Definition hexDigit (c : N) : option N :=
  if isDigit c then Some (c - 48)
  else if (97 <=? c) && (c <=? 102) then Some (c - 87)
  else if (65 <=? c) && (c <=? 70) then Some (c - 55)
  else None.

Definition hex4 (a b c d : N) : option N :=
  match hexDigit a, hexDigit b, hexDigit c, hexDigit d with
  | Some x, Some y, Some z, Some w => Some (((x * 16 + y) * 16 + z) * 16 + w)
  | _, _, _, _ => None
  end.

Definition consChar (c : N) (r : option (jsstring * jsstring))
  : option (jsstring * jsstring) :=
  match r with
  | Some (cs, rest) => Some (c :: cs, rest)
  | None => None
  end.

(** The characters of a string literal, after its opening quote, up to
    and including the closing quote. *)
Fixpoint parseChars (s : jsstring) : option (jsstring * jsstring) :=
  match s with
  | [] => None
  | c :: rest =>
      if c =? 34 then Some ([], rest)
      else if c =? 92 then
        match rest with
        | [] => None
        | e :: r =>
            if e =? 34 then consChar 34 (parseChars r)
            else if e =? 92 then consChar 92 (parseChars r)
            else if e =? 47 then consChar 47 (parseChars r)
            else if e =? 98 then consChar 8 (parseChars r)
            else if e =? 102 then consChar 12 (parseChars r)
            else if e =? 110 then consChar 10 (parseChars r)
            else if e =? 114 then consChar 13 (parseChars r)
            else if e =? 116 then consChar 9 (parseChars r)
            else if e =? 117 then
              match r with
              | h1 :: h2 :: h3 :: h4 :: r' =>
                  match hex4 h1 h2 h3 h4 with
                  | Some u => consChar u (parseChars r')
                  | None => None
                  end
              | _ => None
              end
            else None
        end
      else if c <? 32 then None
      else consChar c (parseChars rest)
  end.

Fixpoint takeDigits (s : jsstring) : jsstring * jsstring :=
  match s with
  | c :: s' =>
      if isDigit c then let (ds, rest) := takeDigits s' in (c :: ds, rest)
      else ([], s)
  | [] => ([], [])
  end.

Definition digitsValue (ds : jsstring) : Z :=
  fold_left (fun acc d => (10 * acc + Z.of_N (d - 48))%Z) ds 0%Z.

(** number = [-] int [frac] [exp]; int = 0 | digit1-9 digits. *)
Definition parseSign (s : jsstring) : bool * jsstring :=
  match s with
  | c :: r => if c =? 45 then (true, r) else (false, s)
  | [] => (false, s)
  end.

(** frac = . digits. *)
Definition parseFrac (s : jsstring) : option (jsstring * jsstring) :=
  match s with
  | c :: r =>
      if c =? 46 then
        let (fp, rest) := takeDigits r in
        match fp with [] => None | _ :: _ => Some (fp, rest) end
      else Some ([], s)
  | [] => Some ([], s)
  end.

(** exp = (e | E) [+ | -] digits. *)
Definition parseExp (s : jsstring) : option (Z * jsstring) :=
  match s with
  | c :: r =>
      if (c =? 101) || (c =? 69) then
        let (negative, r1) :=
          match r with
          | sg :: r' =>
              if sg =? 45 then (true, r')
              else if sg =? 43 then (false, r')
              else (false, r)
          | [] => (false, r)
          end in
        let (ep, rest) := takeDigits r1 in
        match ep with
        | [] => None
        | _ :: _ =>
            Some ((if negative then - digitsValue ep else digitsValue ep)%Z,
                  rest)
        end
      else Some (0%Z, s)
  | [] => Some (0%Z, s)
  end.

Definition parseNumber (s : jsstring) : option (jsvalue * jsstring) :=
  let (negative, s1) := parseSign s in
  let (ip, s2) := takeDigits s1 in
  match ip with
  | [] => None
  | d :: more =>
      if (d =? 48) && negb (match more with [] => true | _ => false end)
      then None
      else
        match parseFrac s2 with
        | None => None
        | Some (fp, s3) =>
            match parseExp s3 with
            | None => None
            | Some (ex, s4) =>
                let m := digitsValue (ip ++ fp) in
                Some (VNum (if negative then - m else m)%Z
                           (ex - Z.of_nat (length fp))%Z, s4)
            end
        end
  end.

Definition expectWord (w : string) (v : jsvalue) (s : jsstring)
  : option (jsvalue * jsstring) :=
  if startsWith s (lit w) then Some (v, skipn (String.length w) s) else None.

(** One JSON value at the head of [s] (after white space), and what
    follows it.  Every two nested calls read at least one code unit, so
    fuel [2 * length s + 2] is never used up ([JSON_parse_fuel]). *)
Fixpoint parseValue (fuel : nat) (s : jsstring) {struct fuel}
  : option (jsvalue * jsstring) :=
  match fuel with
  | O => None
  | S fuel' =>
      match skipWs s with
      | [] => None
      | c :: rest =>
          if c =? 123 then
            match skipWs rest with
            | [] => None
            | c' :: r =>
                if c' =? 125 then Some (VObj [], r)
                else
                  match parseMembers fuel' (c' :: r) with
                  | Some (ms, r') => Some (VObj ms, r')
                  | None => None
                  end
            end
          else if c =? 91 then
            match skipWs rest with
            | [] => None
            | c' :: r =>
                if c' =? 93 then Some (VArr [], r)
                else
                  match parseElements fuel' (c' :: r) with
                  | Some (vs, r') => Some (VArr vs, r')
                  | None => None
                  end
            end
          else if c =? 34 then
            match parseChars rest with
            | Some (cs, r) => Some (VStr cs, r)
            | None => None
            end
          else if c =? 116 then expectWord "true" (VBool true) (c :: rest)
          else if c =? 102 then expectWord "false" (VBool false) (c :: rest)
          else if c =? 110 then expectWord "null" VNull (c :: rest)
          else parseNumber (c :: rest)
      end
  end

with parseElements (fuel : nat) (s : jsstring) {struct fuel}
  : option (list jsvalue * jsstring) :=
  match fuel with
  | O => None
  | S fuel' =>
      match parseValue fuel' s with
      | None => None
      | Some (v, r) =>
          match skipWs r with
          | [] => None
          | c :: r' =>
              if c =? 44 then
                match parseElements fuel' r' with
                | Some (vs, r'') => Some (v :: vs, r'')
                | None => None
                end
              else if c =? 93 then Some ([v], r')
              else None
          end
      end
  end

with parseMembers (fuel : nat) (s : jsstring) {struct fuel}
  : option (list (jsstring * jsvalue) * jsstring) :=
  match fuel with
  | O => None
  | S fuel' =>
      match skipWs s with
      | [] => None
      | q :: r0 =>
          if q =? 34 then
            match parseChars r0 with
            | None => None
            | Some (k, r1) =>
                match skipWs r1 with
                | [] => None
                | colon :: r2 =>
                    if colon =? 58 then
                      match parseValue fuel' r2 with
                      | None => None
                      | Some (v, r3) =>
                          match skipWs r3 with
                          | [] => None
                          | c :: r4 =>
                              if c =? 44 then
                                match parseMembers fuel' r4 with
                                | Some (ms, r5) => Some ((k, v) :: ms, r5)
                                | None => None
                                end
                              else if c =? 125 then Some ([(k, v)], r4)
                              else None
                          end
                      end
                    else None
                end
            end
          else None
      end
  end.

(** [JSON.parse(text)]: [None] is the SyntaxError. *)
Definition JSON_parse (text : jsstring) : option jsvalue :=
  match parseValue (2 * length text + 2) text with
  | Some (v, rest) =>
      match skipWs rest with
      | [] => Some v
      | _ :: _ => None
      end
  | None => None
  end.

(** ** The prompt (buildAnalysisPrompt) *)

(** The texts of the source are written with [~] standing for the double
    quote. *)
Definition text (s : string) : jsstring := quoted "~"%char s.

Definition BC_RTA_KNOWLEDGE : jsstring := text
"
BC RESIDENTIAL TENANCY ACT KEY REGULATIONS:

SECURITY DEPOSITS (Section 19):
- Maximum: 0.5 months rent (half month's rent) - THIS IS LEGAL AND COMPLIANT
- ONLY flag as excessive if deposit is MORE THAN 0.5 months rent
- Examples:
  * $2,000 rent with $1,000 deposit = COMPLIANT (exactly 0.5)
  * $2,000 rent with $1,500 deposit = VIOLATION (0.75 months)
  * $2,100 rent with $1,050 deposit = COMPLIANT (exactly 0.5)
- Must be refundable
- Requires move-in and move-out condition inspection reports
- Cannot be labeled as ~non-refundable~

PET DEPOSITS (Section 19):
- Maximum: 0.5 months rent (separate from security deposit) - THIS IS LEGAL
- ONLY flag as excessive if pet deposit is MORE THAN 0.5 months rent
- Must be refundable
- Only allowed if pets are permitted

RENT INCREASES (Section 42-43):
- Frequency: Once per 12 months maximum
- Notice: 3 months written notice required
- Amount: Limited to government-set percentage (typically 2-3% annually)
- Cannot be retroactive
- Requires proper RTB form

TERMINATION & EVICTION (Section 45-55):
- Landlord must follow proper legal process
- Cannot evict without proper notice and reason
- Tenant entitled to dispute resolution
- Immediate eviction clauses are illegal
- Fixed-term vacate clauses generally unenforceable (since 2017)

NOTICE PERIODS (Section 45):
- Month-to-month: 1 month notice from tenant
- Landlord ending tenancy: 2-4 months depending on reason
- Tenants cannot waive notice rights

MAINTENANCE & REPAIRS (Section 32):
- Landlord responsible for maintaining rental unit
- Landlord must keep unit in reasonable condition
- Major repairs are landlord's responsibility
- Tenant cannot be forced to pay for structural repairs

PRIVACY & ENTRY (Section 29):
- Landlord must give 24 hours written notice before entry
- Entry only allowed 8am-9pm unless emergency
- Must specify reason for entry
- Unlimited access clauses are illegal

TENANT RIGHTS (Section 5):
- Rights under RTA cannot be waived
- Any clause attempting to waive RTA rights is void
- Tenants have right to quiet enjoyment
- Reasonable guest policies only

POST-DATED CHEQUES (Section 22):
- Landlords cannot require post-dated cheques
- Cannot require automatic payment authorization
- Tenant chooses payment method

UTILITIES:
- Must be clearly specified who pays what
- Cannot change utility responsibility without agreement
- Landlord cannot charge more than actual cost

SUBLETTING (Section 34):
- Landlord cannot unreasonably refuse subletting
- Important for students during summer breaks
- Tenant must get landlord approval
".

Definition promptHead : jsstring := text
"You are an expert legal analyst specializing in BC (British Columbia) Residential Tenancy Act compliance. Your task is to analyze rental contracts and identify problematic clauses that violate BC tenancy laws.

".

Definition promptTask : jsstring := text
"

TASK:
Analyze the following rental contract and provide a comprehensive assessment. Extract key details, identify problematic clauses, and calculate an overall risk score.

IMPORTANT INSTRUCTIONS:
1. Be thorough but concise in your analysis
2. ONLY flag clauses that VIOLATE BC law - do NOT flag compliant clauses
3. Security deposits at exactly 0.5 months rent are LEGAL and should NOT be flagged
4. Pet deposits at exactly 0.5 months rent are LEGAL and should NOT be flagged
5. Only flag deposits if they EXCEED 0.5 months rent (e.g., 0.75 months, 1 month, etc.)
6. Provide specific legal references from BC RTA
7. Calculate risk score based on severity: High=30 points, Medium=15 points, Low=5 points (max 100)
8. Provide actionable recommendations for the tenant
9. Extract exact text snippets for flagged clauses (keep under 200 characters)
10. If a contract is compliant, the flaggedClauses array should be EMPTY or contain only informational items

OUTPUT FORMAT:
Respond ONLY with valid JSON matching this exact structure (no markdown, no code blocks, just raw JSON):

{
  ~keyDetails~: {
    ~monthlyRent~: ~extracted value or null~,
    ~securityDeposit~: ~extracted value or null~,
    ~petDeposit~: ~extracted value or null~,
    ~leaseStartDate~: ~extracted value or null~,
    ~leaseEndDate~: ~extracted value or null~,
    ~propertyAddress~: ~extracted value or null~,
    ~landlordName~: ~extracted value or null~,
    ~tenantName~: ~extracted value or null~,
    ~noticePeriod~: ~extracted value or null~
  },
  ~flaggedClauses~: [
    {
      ~clauseText~: ~exact text from contract (max 200 chars)~,
      ~category~: ~security_deposit|rent|termination|maintenance|privacy|pets|subletting|utilities|other~,
      ~severity~: ~low|medium|high~,
      ~isMalicious~: true or false,
      ~violation~: ~brief description of what law is violated~,
      ~legalReference~: ~BC RTA Section X~,
      ~explanation~: ~why this is concerning for the tenant~,
      ~recommendation~: ~what the tenant should do about this~
    }
  ],
  ~overallRiskScore~: 0-100,
  ~riskLevel~: ~low|moderate|high|critical~,
  ~summary~: ~2-3 sentence overview of the contract~,
  ~recommendations~: [~recommendation 1~, ~recommendation 2~, ~...~]
}

RISK LEVEL GUIDELINES:
- low: 0 score, no violations found
- moderate: 1-29 score, minor concerns
- high: 30-59 score, significant violations
- critical: 60+ score, serious illegal clauses

CONTRACT TEXT TO ANALYZE:
".

Definition promptTail : jsstring := text
"

Remember: Respond with ONLY the JSON object, no additional text or formatting.".

(** The template literal of [buildAnalysisPrompt]: the fixed texts around
    [BC_RTA_KNOWLEDGE] and [contractText.slice(0, 50000)]. *)
Definition buildAnalysisPrompt (contractText : jsstring) : jsstring :=
  promptHead ++ BC_RTA_KNOWLEDGE ++ promptTask
  ++ slice0 50000 contractText ++ promptTail.

(** ** The result types (imported from contractAnalyzer and bcRentalClauses;
    their fields are those the object literals of parseGeminiResponse
    fill) *)

Module KeyDetail.
Record t : Type := mk {
  label : string;
  value : jsvalue;
  category : string
}.
End KeyDetail.

Module ClausePattern.
Record t : Type := mk {
  id : string;
  category : jsvalue;
  name : jsvalue;
  description : jsvalue;
  keywords : list jsstring;
  isMalicious : jsvalue;
  severity : jsvalue;
  legalReference : jsvalue;
  explanation : jsvalue
}.
End ClausePattern.

Module FlaggedClause.
Record t : Type := mk {
  clause : ClausePattern.t;
  matchedText : jsvalue;
  position : Z;
  aiInsight : jsvalue
}.
End FlaggedClause.

(** The two values of [analysisMethod], the string literals ['gemini'] and
    ['keyword'] (AnalysisResults.tsx tests for both).  ['gemini'] marks
    the AI path. *)
Inductive AnalysisMethod : Type := gemini | keyword.

Module AnalysisResult.
Record t : Type := mk {
  summary : jsvalue;
  keyDetails : list KeyDetail.t;
  flaggedClauses : list FlaggedClause.t;
  overallRiskScore : jsvalue;
  recommendations : jsvalue;
  analysisMethod : AnalysisMethod;
  confidence : Z
}.
End AnalysisResult.

(** ** Exceptions *)

Inductive Exn : Type :=
| GeminiError (message code : string)   (* the class of this module *)
| OtherError (message : string)         (* any other instance of Error *)
| NonError.                             (* a thrown value that is no Error *)

Inductive Completion (A : Type) : Type :=
| Returns (a : A)
| Throws (e : Exn).

Arguments Returns {A} a.

Arguments Throws {A} e.

Definition bind {A B : Type} (c : Completion A) (k : A -> Completion B)
  : Completion B :=
  match c with
  | Returns a => k a
  | Throws e => Throws e
  end.

Notation "x <- c ;; k" := (bind c (fun x => k))
  (at level 61, c at next level, right associativity).

(** ** validateAnalysisResult *)

Local Open Scope Z_scope.

Local Open Scope string_scope.

(** [v < 0] and [v > 100], used on values whose [typeof] is ['number']. *)
Definition lt0 (v : jsvalue) : bool :=
  match v with VNum m e => numLt0 m e | _ => false end.

Definition gt100 (v : jsvalue) : bool :=
  match v with VNum m e => numGt100 m e | _ => false end.

(** [strings.includes(v)]: strict equality with one of the strings. *)
Definition includes (strings : list string) (v : jsvalue) : bool :=
  match v with
  | VStr s => existsb (fun l => jsstring_eqb (lit l) s) strings
  | _ => false
  end.

Definition validRiskLevels : list string :=
  ["low"; "moderate"; "high"; "critical"].

Definition validateAnalysisResult (data : jsvalue) : bool :=
  if negb (truthy data) || negb (typeof data =? "object") then false else
  (* Check required top-level fields *)
  if negb (truthy (get data "keyDetails"))
     || negb (typeof (get data "keyDetails") =? "object") then false else
  if negb (isArray (get data "flaggedClauses")) then false else
  if negb (typeof (get data "overallRiskScore") =? "number") then false else
  if negb (truthy (get data "riskLevel"))
     || negb (typeof (get data "riskLevel") =? "string") then false else
  if negb (truthy (get data "summary"))
     || negb (typeof (get data "summary") =? "string") then false else
  if negb (isArray (get data "recommendations")) then false else
  (* Validate risk score range *)
  if lt0 (get data "overallRiskScore") || gt100 (get data "overallRiskScore")
  then false else
  (* Validate risk level *)
  if negb (includes validRiskLevels (get data "riskLevel")) then false else
  true.

(** ** parseGeminiResponse *)

(** Remove markdown code blocks if present. *)
Definition cleanedResponse (response : jsstring) : jsstring :=
  let cleaned := trim response in
  if startsWith cleaned (lit "```json") then
    removeWsSuffixFence (removePrefixWs (lit "```json") cleaned)
  else if startsWith cleaned (lit "```") then
    removeWsSuffixFence (removePrefixWs (lit "```") cleaned)
  else cleaned.

(** [if (detailsMap.field) keyDetails.push({ label, value, category })]. *)
Definition pushIf (v : jsvalue) (label category : string)
  : list KeyDetail.t :=
  if truthy v then [KeyDetail.mk label v category] else [].

Definition convertKeyDetails (detailsMap : jsvalue) : list KeyDetail.t :=
  pushIf (get detailsMap "propertyAddress") "Property Address" "other"
  ++ pushIf (get detailsMap "landlordName") "Landlord Name" "other"
  ++ pushIf (get detailsMap "monthlyRent") "Monthly Rent" "rent"
  ++ pushIf (get detailsMap "securityDeposit") "Security Deposit"
       "security_deposit"
  ++ pushIf (get detailsMap "petDeposit") "Pet Deposit" "security_deposit"
  ++ pushIf (get detailsMap "leaseStartDate") "Lease Start Date" "termination"
  ++ pushIf (get detailsMap "leaseEndDate") "Lease End Date" "termination"
  ++ pushIf (get detailsMap "noticePeriod") "Notice Period" "termination".

Definition decimal (n : nat) : string :=
  NilEmpty.string_of_uint (Nat.to_uint n).

(** Reading a property of [null] is a TypeError; its message is the
    engine's (here V8's), and [category] is the first property the
    callback reads. *)
Definition nullPropertyError : Exn :=
  OtherError "Cannot read properties of null (reading 'category')".

(** The callback of [data.flaggedClauses.map]. *)
Definition convertClause (clause : jsvalue) (index : nat)
  : Completion FlaggedClause.t :=
  match clause with
  | VNull | VUndefined => Throws nullPropertyError
  | _ =>
      let clausePattern :=
        ClausePattern.mk
          ("gemini-" ++ decimal index)
          (get clause "category")
          (get clause "violation")
          (get clause "explanation")
          []
          (get clause "isMalicious")
          (get clause "severity")
          (get clause "legalReference")
          (get clause "explanation") in
      Returns (FlaggedClause.mk clausePattern (get clause "clauseText") 0
                 (get clause "recommendation"))
  end.

Fixpoint mapClauses (clauses : list jsvalue) (index : nat)
  : Completion (list FlaggedClause.t) :=
  match clauses with
  | [] => Returns []
  | c :: rest =>
      fc <- convertClause c index ;;
      fcs <- mapClauses rest (S index) ;;
      Returns (fc :: fcs)
  end.

Definition elements (v : jsvalue) : list jsvalue :=
  match v with VArr l => l | _ => [] end.

Definition parseGeminiResponse (response : jsstring)
  : Completion AnalysisResult.t :=
  match JSON_parse (cleanedResponse response) with
  | None =>
      Throws (GeminiError "Failed to parse Gemini response as JSON"
                          "PARSE_ERROR")
  | Some data =>
      if negb (validateAnalysisResult data) then
        Throws (GeminiError "Invalid response structure from Gemini"
                            "VALIDATION_ERROR")
      else
        let keyDetails := convertKeyDetails (get data "keyDetails") in
        flaggedClauses <- mapClauses (elements (get data "flaggedClauses")) 0 ;;
        Returns (AnalysisResult.mk
                   (get data "summary")
                   keyDetails
                   flaggedClauses
                   (get data "overallRiskScore")
                   (get data "recommendations")
                   gemini
                   95)
  end.

(** ** analyzeContractWithGemini *)

Local Open Scope list_scope.

Local Open Scope Z_scope.

(** What [model.generateContent(prompt)] followed by [response.text()]
    does on one attempt: it gives a text, or it throws (network, quota,
    blocked response, ...).  What it throws is never a [GeminiError]: an
    Error with a message, or some other value. *)
Inductive Reply : Type :=
| Text (text : jsstring)
| Failure (message : option string).

(** The environment of the module: the configured key
    ([import.meta.env.VITE_GEMINI_API_KEY], possibly undefined) and the
    remote model, as the reply it gives to the attempt of each number. *)
Record Env : Type := mkEnv {
  apiKey : option jsstring;
  model : Z -> Reply
}.

(** What the function does to the outside, in program order. *)
Inductive Event : Type :=
| GetModel                               (* genAI.getGenerativeModel *)
| BuildPrompt                            (* buildAnalysisPrompt *)
| GenerateContent (prompt : jsstring)    (* model.generateContent *)
| Warn (attemptNumber : Z) (message : string)   (* console.warn *)
| Sleep (ms : Z).                        (* await sleep(ms) *)

(** The body of the [try] block. *)
Definition attemptBody (reply : Reply) : Completion AnalysisResult.t :=
  match reply with
  | Failure (Some message) => Throws (OtherError message)
  | Failure None => Throws NonError
  | Text text =>
      if negb (truthy (VStr text)) then
        Throws (GeminiError "Empty response from Gemini" "EMPTY_RESPONSE")
      else parseGeminiResponse text
  end.

(** The [for] loop, [remaining] being the number of iterations that are
    left, [maxRetries - attempt]; when none is left the loop is over and
    the statement after it throws. *)
Fixpoint retryLoop (remaining : nat) (env : Env) (prompt : jsstring)
    (maxRetries attempt : Z) : list Event * Completion AnalysisResult.t :=
  match remaining with
  | O => ([], Throws (GeminiError "Max retries exceeded" "MAX_RETRIES"))
  | S remaining' =>
      match attemptBody (model env attempt) with
      | Returns result => ([GenerateContent prompt], Returns result)
      | Throws error =>
          let isLastAttempt := attempt =? maxRetries - 1 in
          match error with
          | GeminiError message _ =>
              if negb isLastAttempt then
                let (trace, completion) :=
                  retryLoop remaining' env prompt maxRetries (attempt + 1) in
                (GenerateContent prompt :: Warn (attempt + 1) message
                   :: Sleep (2 ^ attempt * 1000) :: trace, completion)
              else ([GenerateContent prompt], Throws error)
          | OtherError message =>
              ([GenerateContent prompt],
               Throws (GeminiError message "UNKNOWN_ERROR"))
          | NonError =>
              ([GenerateContent prompt],
               Throws (GeminiError "Unknown error during Gemini analysis"
                                   "UNKNOWN_ERROR"))
          end
      end
  end.

Definition keyConfigured (env : Env) : bool :=
  match apiKey env with
  | Some key => truthy (VStr key)
  | None => false
  end.

(** [maxRetries] is the optional second argument, 3 when it is left out. *)
Definition analyzeContractWithGemini (env : Env) (contractText : jsstring)
    (maxRetriesArg : option Z) : list Event * Completion AnalysisResult.t :=
  let maxRetries := match maxRetriesArg with Some n => n | None => 3 end in
  if negb (keyConfigured env) then
    ([], Throws (GeminiError "Gemini API key not configured" "NO_API_KEY"))
  else if negb (truthy (VStr contractText))
          || (strlen (trim contractText) <? 100) then
    ([], Throws (GeminiError "Contract text too short for analysis"
                             "INVALID_INPUT"))
  else
    let prompt := buildAnalysisPrompt contractText in
    let (trace, completion) :=
      retryLoop (Z.to_nat maxRetries) env prompt maxRetries 0 in
    (GetModel :: BuildPrompt :: trace, completion).

(** ** getRiskLevel (AnalysisResults.tsx) *)

Module RiskLevel.
Record t : Type := mk { label : string; color : string; bg : string }.
End RiskLevel.

Definition getRiskLevel (score : Z) : RiskLevel.t :=
  if score =? 0 then RiskLevel.mk "Low Risk" "text-green-600" "bg-green-100"
  else if score <? 30 then
    RiskLevel.mk "Moderate Risk" "text-yellow-600" "bg-yellow-100"
  else if score <? 60 then
    RiskLevel.mk "High Risk" "text-orange-600" "bg-orange-100"
  else RiskLevel.mk "Critical Risk" "text-red-600" "bg-red-100".

(** ** The risk scorer *)

(** Modelled from the spec: the points of a severity in the risk-scoring
    function of section 4.3 (high = 30, medium = 15, low = 5).  The scorer
    lives in contractAnalyzer.ts, which is not among the sources; the
    prompt above states the same points (High=30, Medium=15, Low=5, max
    100). *)
Definition severityPoints (severity : jsvalue) : Z :=
  if includes ["high"] severity then 30
  else if includes ["medium"] severity then 15
  else if includes ["low"] severity then 5
  else 0.

(** Modelled from the spec: only malicious flagged clauses contribute
    points (section 3, invariants; contractAnalyzer.ts is missing). *)
Definition clausePoints (fc : FlaggedClause.t) : Z :=
  if truthy (ClausePattern.isMalicious (FlaggedClause.clause fc))
  then severityPoints (ClausePattern.severity (FlaggedClause.clause fc))
  else 0.

(** Modelled from the spec: [overallRiskScore = min(100, sum(points))]
    (section 4.3; contractAnalyzer.ts is missing). *)
Definition calculateRiskScore (flagged : list FlaggedClause.t) : Z :=
  Z.min 100 (fold_right (fun fc acc => clausePoints fc + acc) 0 flagged).

(** * Definitions for the statements *)

(** ** The two gates of the parser *)

Definition isObject (v : jsvalue) : bool :=
  match v with VObj _ => true | _ => false end.

Definition isNumber (v : jsvalue) : bool :=
  match v with VNum _ _ => true | _ => false end.

Definition isString (v : jsvalue) : bool :=
  match v with VStr _ => true | _ => false end.

Definition objectOrArray (v : jsvalue) : bool :=
  match v with VObj _ | VArr _ => true | _ => false end.

Definition nonEmptyString (v : jsvalue) : bool :=
  match v with VStr (_ :: _) => true | _ => false end.

Definition scoreInRange (data : jsvalue) : bool :=
  negb (lt0 (get data "overallRiskScore"))
  && negb (gt100 (get data "overallRiskScore")).

Definition riskLevelValid (data : jsvalue) : bool :=
  includes validRiskLevels (get data "riskLevel").

(** The schema as the specification words it: the value is an object
    that has every top-level field of the interface GeminiAnalysisResponse
    with the declared type, a score from 0 to 100 and one of the four risk
    levels. *)
Definition meetsSchema (data : jsvalue) : bool :=
  isObject data
  && isObject (get data "keyDetails")
  && isArray (get data "flaggedClauses")
  && isNumber (get data "overallRiskScore")
  && isString (get data "riskLevel")
  && isString (get data "summary")
  && isArray (get data "recommendations")
  && scoreInRange data
  && riskLevelValid data.

(** What validateAnalysisResult lets through, by the shape of the value:
    [keyDetails] may be an array as well as an object, and [summary] has
    to be a string that is not empty. *)
Definition accepts (data : jsvalue) : bool :=
  isObject data
  && objectOrArray (get data "keyDetails")
  && isArray (get data "flaggedClauses")
  && isNumber (get data "overallRiskScore")
  && isString (get data "riskLevel")
  && nonEmptyString (get data "summary")
  && isArray (get data "recommendations")
  && scoreInRange data
  && riskLevelValid data.

Definition errorCode {A : Type} (c : Completion A) : option string :=
  match c with
  | Throws (GeminiError _ code) => Some code
  | _ => None
  end.

Definition notNull (v : jsvalue) : bool :=
  match v with VNull | VUndefined => false | _ => true end.

(** ** Key details *)

(** The fields that parseGeminiResponse converts, with the label and the
    category each is given.  [tenantName], the ninth field of the
    interface, is not among them. *)
Definition keyDetailFields : list (string * string * string) :=
  [ ("propertyAddress", "Property Address", "other");
    ("landlordName", "Landlord Name", "other");
    ("monthlyRent", "Monthly Rent", "rent");
    ("securityDeposit", "Security Deposit", "security_deposit");
    ("petDeposit", "Pet Deposit", "security_deposit");
    ("leaseStartDate", "Lease Start Date", "termination");
    ("leaseEndDate", "Lease End Date", "termination");
    ("noticePeriod", "Notice Period", "termination") ].

Definition fieldOf (f : string * string * string) : string := fst (fst f).

Definition labelOf (f : string * string * string) : string := snd (fst f).

Definition entriesLabelled (label : string) (details : list KeyDetail.t)
  : list KeyDetail.t :=
  filter (fun kd => (KeyDetail.label kd =? label)%string) details.

(** ** Code fences *)

(** A payload in a fenced block: the opening marker with its tag (empty
    or [json]), white space, the payload, white space, the closing
    marker. *)
Definition fenced (tag ws1 ws2 payload : jsstring) : jsstring :=
  backquotes3 ++ tag ++ ws1 ++ payload ++ ws2 ++ backquotes3.

Definition allWhiteSpace (s : jsstring) : bool := forallb isWhiteSpace s.

Definition lineFeed : jsstring := [10%N].

(** ** Retries *)

Definition maxRetriesOf (maxRetriesArg : option Z) : Z :=
  match maxRetriesArg with Some n => n | None => 3 end.

(** An attempt failed with a GeminiError: an empty text, a text that
    is not JSON, or a value that is not accepted. *)
Definition isGeminiFailure (c : Completion AnalysisResult.t) : bool :=
  match c with Throws (GeminiError _ _) => true | _ => false end.

Definition failureMessage (c : Completion AnalysisResult.t) : string :=
  match c with Throws (GeminiError m _) => m | _ => "" end.

(** The requests of [n] failed attempts from [attempt] on, each followed
    by its warning and by a sleep of [2 ^ attempt] seconds. *)
Fixpoint backoffTrace (env : Env) (prompt : jsstring) (n : nat)
    (attempt : Z) : list Event :=
  match n with
  | O => []
  | S n' =>
      GenerateContent prompt
      :: Warn (attempt + 1) (failureMessage (attemptBody (model env attempt)))
      :: Sleep (2 ^ attempt * 1000)
      :: backoffTrace env prompt n' (attempt + 1)
  end.

(** What the caller gets of the attempt that ends the loop: an exception
    that is not a GeminiError comes out wrapped as UNKNOWN_ERROR. *)
Definition surfaced (c : Completion AnalysisResult.t)
  : Completion AnalysisResult.t :=
  match c with
  | Throws (OtherError message) => Throws (GeminiError message "UNKNOWN_ERROR")
  | Throws NonError =>
      Throws (GeminiError "Unknown error during Gemini analysis"
                          "UNKNOWN_ERROR")
  | _ => c
  end.

Definition sleepsOf (trace : list Event) : list Z :=
  flat_map (fun e => match e with Sleep ms => [ms] | _ => [] end) trace.

Definition requestsOf (trace : list Event) : nat :=
  length (filter (fun e => match e with GenerateContent _ => true
                                   | _ => false end) trace).

(** ** Sample inputs *)

(** A response that meets the schema of the prompt. *)
Definition sampleResponse : jsstring := json
"{
  'keyDetails': {
    'monthlyRent': '$2,000', 'securityDeposit': '$1,000', 'petDeposit': null,
    'leaseStartDate': '2024-09-01', 'leaseEndDate': null,
    'propertyAddress': '12 Main St', 'landlordName': 'L. Lord',
    'tenantName': 'T. Nant', 'noticePeriod': null
  },
  'flaggedClauses': [],
  'overallRiskScore': 0,
  'riskLevel': 'low',
  'summary': 'A compliant agreement.',
  'recommendations': ['Keep a signed copy.']
}".

(** A contract text of 124 code units. *)
Definition sampleContract : jsstring := lit
"RESIDENTIAL TENANCY AGREEMENT between L. Lord (landlord) and T. Nant (tenant): monthly rent $2,000, security deposit $1,000.".

Definition sampleKey : option jsstring := Some (lit "key-123").

(** Two texts of 50,001 code units that differ in the last one. *)
Definition longTextA : jsstring := repeat 97%N (N.to_nat 50000) ++ [120%N].

Definition longTextB : jsstring := repeat 97%N (N.to_nat 50000) ++ [121%N].

Definition silentModel : Z -> Reply := fun _ => Text [].

Definition sampleEnv : Env := mkEnv sampleKey (fun _ => Text sampleResponse).

(** A response with every field of the schema, of the declared type, whose
    summary is the empty string. *)
Definition emptySummaryResponse : jsstring := json
"{
  'keyDetails': {
    'monthlyRent': '$2,000', 'securityDeposit': '$1,000', 'petDeposit': null,
    'leaseStartDate': '2024-09-01', 'leaseEndDate': '2025-08-31',
    'propertyAddress': '12 Main St', 'landlordName': 'L. Lord',
    'tenantName': 'T. Nant', 'noticePeriod': '1 month'
  },
  'flaggedClauses': [
    { 'clauseText': 'The deposit is non-refundable.',
      'category': 'security_deposit', 'severity': 'high', 'isMalicious': true,
      'violation': 'Non-refundable deposit',
      'legalReference': 'BC RTA Section 19',
      'explanation': 'Deposits must be refundable.',
      'recommendation': 'Ask to remove the clause.' }
  ],
  'overallRiskScore': 30,
  'riskLevel': 'high',
  'summary': '',
  'recommendations': ['Ask to remove the clause.']
}".

(** A response that meets the schema and has [null] among its flagged
    clauses. *)
Definition nullClauseResponse : jsstring := json
"{'keyDetails': {}, 'flaggedClauses': [null], 'overallRiskScore': 0,
  'riskLevel': 'low', 'summary': 'Nothing found.', 'recommendations': []}".

(** A response whose [keyDetails] is an array. *)
Definition arrayKeyDetailsResponse : jsstring := json
"{'keyDetails': [], 'flaggedClauses': [], 'overallRiskScore': 0,
  'riskLevel': 'low', 'summary': 'Nothing found.', 'recommendations': []}".

(** A response that declares the score 0 and the level low next to three
    malicious clauses of high severity. *)
Definition inconsistentScoreResponse : jsstring := json
"{
  'keyDetails': { 'monthlyRent': '$2,000', 'securityDeposit': '$3,000' },
  'flaggedClauses': [
    { 'clauseText': 'Deposit of $3,000', 'category': 'security_deposit',
      'severity': 'high', 'isMalicious': true,
      'violation': 'Excessive deposit', 'legalReference': 'BC RTA Section 19',
      'explanation': 'More than half a month of rent.',
      'recommendation': 'Ask for $1,000.' },
    { 'clauseText': 'The deposit is non-refundable.',
      'category': 'security_deposit', 'severity': 'high', 'isMalicious': true,
      'violation': 'Non-refundable deposit',
      'legalReference': 'BC RTA Section 19',
      'explanation': 'Deposits must be refundable.',
      'recommendation': 'Ask to remove the clause.' },
    { 'clauseText': 'The landlord may enter at any time.',
      'category': 'privacy', 'severity': 'high', 'isMalicious': true,
      'violation': 'Unrestricted entry', 'legalReference': 'BC RTA Section 29',
      'explanation': 'Entry needs 24 hours of written notice.',
      'recommendation': 'Ask to remove the clause.' }
  ],
  'overallRiskScore': 0,
  'riskLevel': 'low',
  'summary': 'No concerns.',
  'recommendations': []
}".

(** A response in which two key details are not null, the tenant's name
    and an empty monthly rent. *)
Definition tenantNameResponse : jsstring := json
"{
  'keyDetails': {
    'monthlyRent': '', 'securityDeposit': null, 'petDeposit': null,
    'leaseStartDate': null, 'leaseEndDate': null, 'propertyAddress': null,
    'landlordName': null, 'tenantName': 'T. Nant', 'noticePeriod': null
  },
  'flaggedClauses': [],
  'overallRiskScore': 0,
  'riskLevel': 'low',
  'summary': 'Nothing found.',
  'recommendations': []
}".

(** A model whose first reply is empty, whose second fails validation and
    whose third is good. *)
Definition flakyEnv : Env :=
  mkEnv sampleKey
    (fun attempt =>
       if attempt =? 0 then Text []
       else if attempt =? 1 then Text emptySummaryResponse
       else Text sampleResponse).

(** A model that cannot be reached. *)
Definition networkDownEnv : Env :=
  mkEnv sampleKey (fun _ => Failure (Some "fetch failed")).

(** * The rest of the code *)

(** ** Definitions for the statements about the service *)


(** The codes of the GeminiErrors that the module constructs in
    analyzeContractWithGemini and parseGeminiResponse. *)
Definition analysisErrorCodes : list string :=
  ["NO_API_KEY"; "INVALID_INPUT"; "EMPTY_RESPONSE"; "PARSE_ERROR";
   "VALIDATION_ERROR"; "UNKNOWN_ERROR"; "MAX_RETRIES"].

(** The code units a JSON text can begin with: white space, an opening
    brace or bracket, a quote, a minus sign, a digit, or the first letter
    of [true], [false] or [null]. *)
Definition canStartJson (c : N) : bool :=
  isJsonWs c || (c =? 123)%N || (c =? 91)%N || (c =? 34)%N || (c =? 45)%N
  || isDigit c || (c =? 116)%N || (c =? 102)%N || (c =? 110)%N.

Definition categoryOf (f : string * string * string) : string := snd f.


(** A model whose reply passes validation and has [null] among its
    flagged clauses. *)
Definition nullClauseEnv : Env :=
  mkEnv sampleKey (fun _ => Text nullClauseResponse).

Definition clauseId (fc : FlaggedClause.t) : string :=
  ClausePattern.id (FlaggedClause.clause fc).


(** ** The results view (AnalysisResults.tsx) *)

(** [flaggedClauses.filter(f => f.clause.isMalicious)] and
    [flaggedClauses.filter(f => !f.clause.isMalicious)]. *)
Definition maliciousClauses (flaggedClauses : list FlaggedClause.t)
  : list FlaggedClause.t :=
  filter (fun f => truthy (ClausePattern.isMalicious (FlaggedClause.clause f)))
         flaggedClauses.








(** The badge of a problematic clause, [flagged.clause.severity
    .toUpperCase()]: on a string it is the method of String.prototype; a
    value of another type has no such method ([undefined] and [null] have
    no properties at all, and a property of that name in parsed JSON is
    not a function), and the call throws a TypeError, [None] here.
    [toUpperCase] is kept abstract. *)
Definition severityText (toUpperCase : jsstring -> jsstring)
    (flagged : FlaggedClause.t) : option jsstring :=
  match ClausePattern.severity (FlaggedClause.clause flagged) with
  | VStr s => Some (toUpperCase s)
  | _ => None
  end.

(** [maliciousClauses.map(...)], as far as the badges go: the texts of
    all of them, or the exception of the first that throws. *)
Fixpoint severityTexts (toUpperCase : jsstring -> jsstring)
    (clauses : list FlaggedClause.t) : option (list jsstring) :=
  match clauses with
  | [] => Some []
  | flagged :: rest =>
      match severityText toUpperCase flagged with
      | None => None
      | Some s =>
          match severityTexts toUpperCase rest with
          | None => None
          | Some texts => Some (s :: texts)
          end
      end
  end.

Definition severityBadges (toUpperCase : jsstring -> jsstring)
    (flaggedClauses : list FlaggedClause.t) : option (list jsstring) :=
  severityTexts toUpperCase (maliciousClauses flaggedClauses).


(** A response with a problematic clause that has no severity. *)
Definition noSeverityResponse : jsstring :=
  json "{'summary': 'One clause.', 'overallRiskScore': 40,
         'riskLevel': 'high',
         'keyDetails': {'monthlyRent': 0, 'petDeposit': '$500'},
         'flaggedClauses': [
           {'clauseText': 'No guests.', 'violation': 'Guest ban',
            'isMalicious': true}],
         'recommendations': []}".

(** ** extractTextFromPDF (pdfParser) *)

(** [items.join(sep)]. *)
Fixpoint join (sep : jsstring) (items : list jsstring) : jsstring :=
  match items with
  | [] => []
  | [item] => item
  | item :: rest => item ++ sep ++ join sep rest
  end.

(** A document is given as its pages, a page as the [str] of the items of
    its text content. *)
Definition extractTextFromPDF (pages : list (list jsstring)) : jsstring :=
  fold_left (fun fullText items =>
               fullText ++ (join (lit " ") items ++ [10; 10]%N))
            pages [].

(** ** The chat (sendChatMessage, ContractChatbot.tsx) *)

(** [chatSession.sendMessage(message)] followed by [response.text()]
    gives a text or throws, as a [Reply]; whatever is thrown leaves the
    function as a GeminiError of code CHAT_ERROR. *)
Definition sendChatMessage (reply : Reply) : Completion jsstring :=
  match reply with
  | Text text => Returns text
  | Failure (Some message) => Throws (GeminiError message "CHAT_ERROR")
  | Failure None =>
      Throws (GeminiError "Failed to send chat message" "CHAT_ERROR")
  end.

(** The guard of createContractChatSession; the session it returns is
    kept abstract. *)
Definition createContractChatSession (env : Env) : Completion unit :=
  if negb (keyConfigured env) then
    Throws (GeminiError "Gemini API key not configured" "NO_API_KEY")
  else Returns tt.

Inductive Role : Type := user | assistant.

Module ChatMessage.
Record t : Type := mk {
  role : Role;
  content : jsstring;
  timestamp : Z
}.
End ChatMessage.

(** The state of the component; [chatSession] tells whether the session
    is there (not null). *)
Record ChatState : Type := mkChat {
  messages : list ChatMessage.t;
  input : jsstring;
  isLoading : bool;
  chatSession : bool
}.

Inductive ChatEvent : Type :=
| SendMessage (message : jsstring)     (* chatSession.sendMessage *)
| ConsoleError (error : Exn)           (* console.error *)
| Toast (title : string).              (* toast *)

(** The welcome message; the nail polish is U+1F485, the sparkles U+2728
    and the bullet U+2022. *)
Definition welcomeContent : jsstring :=
  lit "Hey there! " ++ [55357; 56453]%N
  ++ lit " I'm Lease-Uh, your sassy rental contract advisor, and I just finished reading your contract. Honey, I've got OPINIONS. I'm here to spill the tea on your rental agreement and help you navigate this whole situation."
  ++ [10; 10]%N ++ lit "Ask me about:" ++ [10; 8226]%N
  ++ lit " What those sketchy clauses actually mean" ++ [10; 8226]%N
  ++ lit " Your next moves (because you've got options!)" ++ [10; 8226]%N
  ++ lit " Your rights as a BC tenant (spoiler: you have more than you think)"
  ++ [10; 8226]%N ++ lit " How to handle problematic landlords"
  ++ [10; 8226]%N ++ lit " Where to get backup when you need it"
  ++ [10; 10]%N ++ lit "So... what's on your mind? " ++ [10024]%N.

(** The effect that starts the chat, at the time [now]. *)
Definition initChat (env : Env) (now : Z) : ChatState * list ChatEvent :=
  match createContractChatSession env with
  | Returns _ =>
      (mkChat [ChatMessage.mk assistant welcomeContent now] [] false true, [])
  | Throws error =>
      (mkChat [] [] false false,
       [ConsoleError error; Toast "Chat Unavailable"])
  end.

(** [handleSendMessage], from the click to the end of the [finally]
    block; [sent] and [answered] are the two readings of the clock. *)
Definition handleSendMessage (st : ChatState) (reply : Reply)
    (sent answered : Z) : ChatState * list ChatEvent :=
  if negb (truthy (VStr (trim (input st)))) || negb (chatSession st)
     || isLoading st
  then (st, [])
  else
    let userMessage := ChatMessage.mk user (trim (input st)) sent in
    let shown := messages st ++ [userMessage] in
    match sendChatMessage reply with
    | Returns response =>
        (mkChat (shown ++ [ChatMessage.mk assistant response answered])
                [] false (chatSession st),
         [SendMessage (ChatMessage.content userMessage)])
    | Throws error =>
        (mkChat shown [] false (chatSession st),
         [SendMessage (ChatMessage.content userMessage);
          ConsoleError error; Toast "Message Failed"])
    end.

(** What the user does: change the input (typing, or a suggested
    question) and send. *)
Inductive Action : Type :=
| SetInput (value : jsstring)
| Send (reply : Reply) (sent answered : Z).

Definition act (st : ChatState) (a : Action) : ChatState * list ChatEvent :=
  match a with
  | SetInput value =>
      (mkChat (messages st) value (isLoading st) (chatSession st), [])
  | Send reply sent answered => handleSendMessage st reply sent answered
  end.

Fixpoint runChat (st : ChatState) (actions : list Action)
  : ChatState * list ChatEvent :=
  match actions with
  | [] => (st, [])
  | a :: rest =>
      let (st1, events1) := act st a in
      let (st2, events2) := runChat st1 rest in
      (st2, events1 ++ events2)
  end.

(** The chat of a component from its start. *)
Definition chat (env : Env) (now : Z) (actions : list Action)
  : ChatState * list ChatEvent :=
  let (st0, events0) := initChat env now in
  let (st, events) := runChat st0 actions in
  (st, events0 ++ events).

(** The suggested questions are shown when [messages.length === 1]. *)
Definition showsSuggestions (st : ChatState) : bool :=
  (length (messages st) =? 1)%nat.

Definition isUser (m : ChatMessage.t) : bool :=
  match ChatMessage.role m with user => true | assistant => false end.

(** Questions and answers: every message of the user is not blank, and
    an answer comes only directly after a question. *)
Fixpoint exchanges (l : list ChatMessage.t) : bool :=
  match l with
  | [] => true
  | question :: rest =>
      isUser question
      && truthy (VStr (ChatMessage.content question))
      && match rest with
         | [] => true
         | answer :: rest' =>
             if isUser answer then exchanges rest else exchanges rest'
         end
  end.

(** The messages that were sent to the model, in order. *)
Definition sentMessages (events : list ChatEvent) : list jsstring :=
  flat_map (fun e => match e with SendMessage m => [m] | _ => [] end) events.

Definition isFailureToast (e : ChatEvent) : bool :=
  match e with Toast "Message Failed" => true | _ => false end.

(** What is logged on the console is a GeminiError of code CHAT_ERROR. *)
Definition chatErrorOnly (e : ChatEvent) : bool :=
  match e with
  | ConsoleError (GeminiError _ "CHAT_ERROR") => true
  | ConsoleError _ => false
  | _ => true
  end.

(** What one action adds to the conversation. *)
Definition added_by (added : list ChatMessage.t) (events : list ChatEvent)
  : Prop :=
  exchanges added = true
  /\ map ChatMessage.content (filter isUser added) = sentMessages events
  /\ (length added + length (filter isFailureToast events)
      = 2 * length (sentMessages events))%nat
  /\ forallb chatErrorOnly events = true.

(** The five properties of the response that the result is made of. *)
Definition resultFields : list string :=
  [ "summary"; "keyDetails"; "flaggedClauses"; "overallRiskScore";
    "recommendations" ].

(** A response that differs from [sampleResponse] in the key details that
    are not converted, in the risk level and in a property that the schema
    does not have. *)
Definition sampleResponseVariant : jsstring := json
"{
  'riskLevel': 'critical',
  'keyDetails': {
    'monthlyRent': '$2,000', 'securityDeposit': '$1,000', 'petDeposit': null,
    'leaseStartDate': '2024-09-01', 'leaseEndDate': null,
    'propertyAddress': '12 Main St', 'landlordName': 'L. Lord',
    'tenantName': 'T. Nant', 'noticePeriod': null
  },
  'flaggedClauses': [],
  'overallRiskScore': 0,
  'summary': 'A compliant agreement.',
  'recommendations': ['Keep a signed copy.'],
  'notes': 'none'
}".
(** * Properties *)

(** ** Checks of the definitions, and the fuel of JSON.parse *)

Example JSON_parse_sample :
  JSON_parse (json " { 'a' : [1, -2.50e1, true, null, 'xA\n'], 'a' : {} } ")
  = Some (VObj [(lit "a", VArr [VNum 1 0; VNum (-250) (-1); VBool true; VNull;
                               VStr [120; 65; 10]%N]);
                (lit "a", VObj [])]).
Proof. vm_compute. reflexivity. Qed.

Example JSON_parse_rejects :
  map JSON_parse [json ""; json "[1,]"; json "01"; json "{'a':1,}";
                  json "nul"; json "1 2"; json "[1"; json "'a"; json "1.";
                  json "{a:1}"; json "-"; json "1e"; lit "'a'"]
  = repeat None 13.
Proof. vm_compute. reflexivity. Qed.

Example sampleContract_length : strlen (trim sampleContract) = 124.
Proof. vm_compute. reflexivity. Qed.

Example cleanedResponse_sample :
  cleanedResponse (json "  ```json
{'a': 1}
```
") = json "{'a': 1}".
Proof. vm_compute. reflexivity. Qed.

Lemma skipWs_length (s : jsstring) : (length (skipWs s) <= length s)%nat.
Proof.
  induction s as [|c s IH]; cbn [skipWs]; [lia|].
  destruct (isJsonWs c); cbn [length]; lia.
Qed.

Lemma skipWs_cons_length (s r : jsstring) (c : N) :
  skipWs s = c :: r -> (length r < length s)%nat.
Proof.
  intros H. pose proof (skipWs_length s) as Hlen. rewrite H in Hlen.
  cbn [length] in Hlen. lia.
Qed.

Lemma consChar_some (c : N) (p : option (jsstring * jsstring))
    (cs r : jsstring) :
  consChar c p = Some (cs, r) -> exists cs', p = Some (cs', r).
Proof.
  destruct p as [[cs' r']|]; cbn; [|discriminate].
  intros H. injection H as _ <-. exists cs'. reflexivity.
Qed.

Lemma parseChars_length (n : nat) :
  forall s cs r, (length s <= n)%nat ->
                 parseChars s = Some (cs, r) -> (length r < length s)%nat.
Proof.
  induction n as [|n IH]; intros s cs r Hn H.
  - destruct s; [discriminate|cbn in Hn; lia].
  - destruct s as [|c rest]; [discriminate|].
    cbn [parseChars] in H. cbn [length] in *.
    destruct (c =? 34)%N.
    { injection H as _ <-. lia. }
    destruct (c =? 92)%N.
    + destruct rest as [|e r0]; [discriminate|]. cbn [length] in *.
      repeat match type of H with
             | (if ?b then _ else _) = _ => destruct b
             | consChar _ _ = _ =>
                 apply consChar_some in H as (cs' & H);
                 apply IH in H; [lia|lia]
             end; try discriminate.
      destruct r0 as [|h1 [|h2 [|h3 [|h4 r']]]]; try discriminate.
      destruct (hex4 h1 h2 h3 h4); [|discriminate].
      apply consChar_some in H as (cs' & H).
      apply IH in H; cbn [length] in *; lia.
    + destruct (c <? 32)%N; [discriminate|].
      apply consChar_some in H as (cs' & H).
      apply IH in H; lia.
Qed.

Lemma takeDigits_length (s : jsstring) :
  forall ds r, takeDigits s = (ds, r) ->
               length s = (length ds + length r)%nat.
Proof.
  induction s as [|c s IH]; intros ds r H; cbn [takeDigits] in H.
  - injection H as <- <-. reflexivity.
  - destruct (isDigit c).
    + destruct (takeDigits s) as [ds' r'] eqn:Hrec.
      injection H as <- <-. cbn [length]. rewrite (IH ds' r' eq_refl). lia.
    + injection H as <- <-. reflexivity.
Qed.

Lemma parseSign_length (s r : jsstring) (b : bool) :
  parseSign s = (b, r) -> (length r <= length s)%nat.
Proof.
  unfold parseSign. destruct s as [|c s]; intros H.
  - injection H as _ <-. lia.
  - destruct (c =? 45)%N; injection H as _ <-; cbn [length]; lia.
Qed.

Lemma parseFrac_length (s fp r : jsstring) :
  parseFrac s = Some (fp, r) -> (length r <= length s)%nat.
Proof.
  unfold parseFrac. destruct s as [|c s]; intros H.
  - injection H as _ <-. lia.
  - destruct (c =? 46)%N.
    + destruct (takeDigits s) as [ds rest] eqn:Hd.
      apply takeDigits_length in Hd.
      destruct ds; [discriminate|]. injection H as _ <-.
      cbn [length] in *. lia.
    + injection H as _ <-. lia.
Qed.

Lemma parseExp_length (s r : jsstring) (ex : Z) :
  parseExp s = Some (ex, r) -> (length r <= length s)%nat.
Proof.
  unfold parseExp. destruct s as [|c s]; intros H.
  - injection H as _ <-. lia.
  - destruct ((c =? 101)%N || (c =? 69)%N).
    + destruct (match s with
                | [] => (false, s)
                | sg :: r' =>
                    if (sg =? 45)%N then (true, r')
                    else if (sg =? 43)%N then (false, r') else (false, s)
                end) as [negative r1] eqn:Hsign.
      assert (Hr1 : (length r1 <= length s)%nat).
      { destruct s as [|sg r']; [injection Hsign as _ <-; lia|].
        destruct (sg =? 45)%N; [injection Hsign as _ <-; cbn; lia|].
        destruct (sg =? 43)%N; injection Hsign as _ <-; cbn; lia. }
      destruct (takeDigits r1) as [ds rest] eqn:Hd.
      apply takeDigits_length in Hd.
      destruct ds; [discriminate|]. injection H as _ <-.
      cbn [length] in *. lia.
    + injection H as _ <-. lia.
Qed.

Lemma parseNumber_length (s r : jsstring) (v : jsvalue) :
  parseNumber s = Some (v, r) -> (length r < length s)%nat.
Proof.
  unfold parseNumber.
  destruct (parseSign s) as [negative s1] eqn:Hsign.
  apply parseSign_length in Hsign.
  destruct (takeDigits s1) as [ip s2] eqn:Hint.
  apply takeDigits_length in Hint.
  destruct ip as [|d more]; [discriminate|].
  destruct ((d =? 48)%N && negb match more with [] => true | _ :: _ => false end);
    [discriminate|].
  destruct (parseFrac s2) as [[fp s3]|] eqn:Hfrac; [|discriminate].
  apply parseFrac_length in Hfrac.
  destruct (parseExp s3) as [[ex s4]|] eqn:Hexp; [|discriminate].
  apply parseExp_length in Hexp.
  intros H. injection H as _ <-. cbn [length] in *. lia.
Qed.

Lemma expectWord_length (w : string) (v v' : jsvalue) (s r : jsstring) :
  w <> EmptyString ->
  expectWord w v s = Some (v', r) -> (length r < length s)%nat.
Proof.
  unfold expectWord. intros Hw H.
  destruct (startsWith s (lit w)) eqn:Hs; [|discriminate].
  injection H as _ <-.
  destruct w as [|a w]; [contradiction|].
  destruct s as [|c s]; [discriminate|].
  cbn [String.length skipn length].
  pose proof (length_skipn (String.length w) s). lia.
Qed.

(** Every parser consumes at least one code unit. *)
Lemma parse_length (f : nat) :
  (forall s v r, parseValue f s = Some (v, r) -> (length r < length s)%nat)
  /\ (forall s vs r,
        parseElements f s = Some (vs, r) -> (length r < length s)%nat)
  /\ (forall s ms r,
        parseMembers f s = Some (ms, r) -> (length r < length s)%nat).
Proof.
  induction f as [|f (IHv & IHe & IHm)].
  - repeat split; intros; discriminate.
  - split; [|split].
    + intros s v r H. cbn [parseValue] in H.
      destruct (skipWs s) as [|c rest] eqn:Hs; [discriminate|].
      apply skipWs_cons_length in Hs.
      destruct (c =? 123)%N.
      { destruct (skipWs rest) as [|c' r0] eqn:Hs2; [discriminate|].
        apply skipWs_cons_length in Hs2.
        destruct (c' =? 125)%N; [injection H as _ <-; lia|].
        destruct (parseMembers f (c' :: r0)) as [[ms r']|] eqn:Hm;
          [|discriminate].
        injection H as _ <-. apply IHm in Hm. cbn [length] in Hm. lia. }
      destruct (c =? 91)%N.
      { destruct (skipWs rest) as [|c' r0] eqn:Hs2; [discriminate|].
        apply skipWs_cons_length in Hs2.
        destruct (c' =? 93)%N; [injection H as _ <-; lia|].
        destruct (parseElements f (c' :: r0)) as [[vs r']|] eqn:He;
          [|discriminate].
        injection H as _ <-. apply IHe in He. cbn [length] in He. lia. }
      destruct (c =? 34)%N.
      { destruct (parseChars rest) as [[cs r0]|] eqn:Hc; [|discriminate].
        injection H as _ <-.
        apply (parseChars_length (length rest)) in Hc; lia. }
      destruct (c =? 116)%N.
      { apply expectWord_length in H; [cbn [length] in H; lia|discriminate]. }
      destruct (c =? 102)%N.
      { apply expectWord_length in H; [cbn [length] in H; lia|discriminate]. }
      destruct (c =? 110)%N.
      { apply expectWord_length in H; [cbn [length] in H; lia|discriminate]. }
      apply parseNumber_length in H. cbn [length] in H. lia.
    + intros s vs r H. cbn [parseElements] in H.
      destruct (parseValue f s) as [[v r0]|] eqn:Hv; [|discriminate].
      apply IHv in Hv.
      destruct (skipWs r0) as [|c r'] eqn:Hs; [discriminate|].
      apply skipWs_cons_length in Hs.
      destruct (c =? 44)%N.
      { destruct (parseElements f r') as [[vs' r'']|] eqn:He; [|discriminate].
        injection H as _ <-. apply IHe in He. lia. }
      destruct (c =? 93)%N; [|discriminate].
      injection H as _ <-. lia.
    + intros s ms r H. cbn [parseMembers] in H.
      destruct (skipWs s) as [|q r0] eqn:Hs0; [discriminate|].
      apply skipWs_cons_length in Hs0.
      destruct (q =? 34)%N; [|discriminate].
      destruct (parseChars r0) as [[k r1]|] eqn:Hk; [|discriminate].
      apply (parseChars_length (length r0)) in Hk; [|lia].
      destruct (skipWs r1) as [|colon r2] eqn:Hs1; [discriminate|].
      apply skipWs_cons_length in Hs1.
      destruct (colon =? 58)%N; [|discriminate].
      destruct (parseValue f r2) as [[v r3]|] eqn:Hv; [|discriminate].
      apply IHv in Hv.
      destruct (skipWs r3) as [|c r4] eqn:Hs3; [discriminate|].
      apply skipWs_cons_length in Hs3.
      destruct (c =? 44)%N.
      { destruct (parseMembers f r4) as [[ms' r5]|] eqn:Hm; [|discriminate].
        injection H as _ <-. apply IHm in Hm. lia. }
      destruct (c =? 125)%N; [|discriminate].
      injection H as _ <-. lia.
Qed.

(** Above twice the length of the text, the fuel does not matter. *)
Lemma parse_fuel (f : nat) :
  (forall s f', (2 * length s + 1 <= f)%nat -> (2 * length s + 1 <= f')%nat ->
                parseValue f s = parseValue f' s)
  /\ (forall s f', (2 * length s + 2 <= f)%nat ->
                   (2 * length s + 2 <= f')%nat ->
                   parseElements f s = parseElements f' s)
  /\ (forall s f', (2 * length s + 2 <= f)%nat ->
                   (2 * length s + 2 <= f')%nat ->
                   parseMembers f s = parseMembers f' s).
Proof.
  induction f as [|f (IHv & IHe & IHm)].
  - repeat split; intros; lia.
  - split; [|split]; intros s [|f'] Hf Hf'; try lia.
    + cbn [parseValue].
      destruct (skipWs s) as [|c rest] eqn:Hs; [reflexivity|].
      apply skipWs_cons_length in Hs.
      destruct (skipWs rest) as [|c' r0] eqn:Hs2.
      { reflexivity. }
      apply skipWs_cons_length in Hs2.
      rewrite (IHm (c' :: r0) f'), (IHe (c' :: r0) f')
        by (cbn [length]; lia).
      reflexivity.
    + cbn [parseElements].
      rewrite (IHv s f') by lia.
      destruct (parseValue f' s) as [[v r0]|] eqn:Hv; [|reflexivity].
      apply (proj1 (parse_length f')) in Hv.
      destruct (skipWs r0) as [|c r'] eqn:Hs; [reflexivity|].
      apply skipWs_cons_length in Hs.
      rewrite (IHe r' f') by lia. reflexivity.
    + cbn [parseMembers].
      destruct (skipWs s) as [|q r0] eqn:Hs0; [reflexivity|].
      apply skipWs_cons_length in Hs0.
      destruct (q =? 34)%N; [|reflexivity].
      destruct (parseChars r0) as [[k r1]|] eqn:Hk; [|reflexivity].
      apply (parseChars_length (length r0)) in Hk; [|lia].
      destruct (skipWs r1) as [|colon r2] eqn:Hs1; [reflexivity|].
      apply skipWs_cons_length in Hs1.
      destruct (colon =? 58)%N; [|reflexivity].
      rewrite (IHv r2 f') by lia.
      destruct (parseValue f' r2) as [[v r3]|] eqn:Hv; [|reflexivity].
      apply (proj1 (parse_length f')) in Hv.
      destruct (skipWs r3) as [|c r4] eqn:Hs3; [reflexivity|].
      apply skipWs_cons_length in Hs3.
      rewrite (IHm r4 f') by lia. reflexivity.
Qed.

(** The fuel of [JSON_parse] is enough: more fuel gives the same result,
    so that [None] is always a syntax error. *)
Lemma JSON_parse_fuel (text : jsstring) (fuel : nat) :
  (2 * length text + 2 <= fuel)%nat ->
  parseValue fuel text = parseValue (2 * length text + 2) text.
Proof.
  intros H. apply (proj1 (parse_fuel fuel)); lia.
Qed.

(** ** What a successful parse returns *)

Lemma parseGeminiResponse_returns (response : jsstring)
    (r : AnalysisResult.t) :
  parseGeminiResponse response = Returns r ->
  exists data flagged,
    JSON_parse (cleanedResponse response) = Some data
    /\ validateAnalysisResult data = true
    /\ mapClauses (elements (get data "flaggedClauses")) 0 = Returns flagged
    /\ r = AnalysisResult.mk (get data "summary")
             (convertKeyDetails (get data "keyDetails")) flagged
             (get data "overallRiskScore") (get data "recommendations")
             gemini 95.
Proof.
  unfold parseGeminiResponse.
  destruct (JSON_parse (cleanedResponse response)) as [data|]; [|discriminate].
  destruct (validateAnalysisResult data) eqn:Hvalid; simpl; [|discriminate].
  destruct (mapClauses (elements (get data "flaggedClauses")) 0)
    as [flagged|e] eqn:Hmap; simpl; [|discriminate].
  intros H. injection H as <-. exists data, flagged. auto.
Qed.

(** A result of the retry loop is the parse of the text of some attempt. *)
Lemma retryLoop_returns (remaining : nat) (env : Env) (prompt : jsstring)
    (maxRetries : Z) :
  forall (attempt : Z) (r : AnalysisResult.t),
    snd (retryLoop remaining env prompt maxRetries attempt) = Returns r ->
    exists (i : Z) (text : jsstring),
      model env i = Text text /\ parseGeminiResponse text = Returns r.
Proof.
  induction remaining as [|n IH]; intros attempt r H; simpl in H.
  - discriminate.
  - destruct (attemptBody (model env attempt)) as [res|e] eqn:Hbody.
    + simpl in H. injection H as ->.
      unfold attemptBody in Hbody.
      destruct (model env attempt) as [text|[m|]] eqn:Hmodel;
        try discriminate.
      destruct (negb (truthy (VStr text))); [discriminate|].
      exists attempt, text. auto.
    + destruct e as [message code|message|]; try discriminate.
      destruct (negb (attempt =? maxRetries - 1)); [|discriminate].
      destruct (retryLoop n env prompt maxRetries (attempt + 1))
        as [trace completion] eqn:Hrec.
      simpl in H. apply (IH (attempt + 1)). rewrite Hrec. exact H.
Qed.

Lemma analyze_returns (env : Env) (contractText : jsstring)
    (maxRetries : option Z) (r : AnalysisResult.t) :
  snd (analyzeContractWithGemini env contractText maxRetries) = Returns r ->
  exists (i : Z) (text : jsstring),
    model env i = Text text /\ parseGeminiResponse text = Returns r.
Proof.
  unfold analyzeContractWithGemini.
  destruct (negb (keyConfigured env)); [discriminate|].
  destruct (negb (truthy (VStr contractText))
            || (strlen (trim contractText) <? 100)); [discriminate|].
  set (n := match maxRetries with Some n => n | None => 3 end).
  destruct (retryLoop (Z.to_nat n) env (buildAnalysisPrompt contractText) n 0)
    as [trace completion] eqn:Hloop.
  simpl. intros ->.
  apply (retryLoop_returns (Z.to_nat n) env
           (buildAnalysisPrompt contractText) n 0).
  rewrite Hloop. reflexivity.
Qed.

(** ** The risk-level table *)

(** C6.  For every integer score from 0 to 100, the risk level that
    getRiskLevel attaches to it depends on the score alone: 0 is low, 1 to
    29 moderate, 30 to 59 high, and 60 or more critical. *)
Theorem getRiskLevel_table (score : Z) :
  0 <= score <= 100 ->
  (score = 0 -> RiskLevel.label (getRiskLevel score) = "Low Risk")
  /\ (1 <= score <= 29 ->
      RiskLevel.label (getRiskLevel score) = "Moderate Risk")
  /\ (30 <= score <= 59 ->
      RiskLevel.label (getRiskLevel score) = "High Risk")
  /\ (60 <= score ->
      RiskLevel.label (getRiskLevel score) = "Critical Risk").
Proof.
  intros Hrange. unfold getRiskLevel.
  repeat split; intros H.
  - subst score. reflexivity.
  - destruct (Z.eqb_spec score 0); [lia|].
    destruct (Z.ltb_spec score 30); [reflexivity|lia].
  - destruct (Z.eqb_spec score 0); [lia|].
    destruct (Z.ltb_spec score 30); [lia|].
    destruct (Z.ltb_spec score 60); [reflexivity|lia].
  - destruct (Z.eqb_spec score 0); [lia|].
    destruct (Z.ltb_spec score 30); [lia|].
    destruct (Z.ltb_spec score 60); [lia|reflexivity].
Qed.

Lemma getRiskLevel_table_witness :
  0 <= 45 <= 100 /\ RiskLevel.label (getRiskLevel 45) = "High Risk".
Proof.
  split; [lia|].
  destruct (getRiskLevel_table 45 ltac:(lia)) as (_ & _ & Hhigh & _).
  apply Hhigh. lia.
Defined.

(** ** The prompt *)

Lemma slice0_length (n : N) (s : jsstring) :
  N.of_nat (length (slice0 n s)) = N.min n (N.of_nat (length s)).
Proof.
  revert n. induction s as [|c s IH]; intros n; simpl.
  - lia.
  - destruct (N.eqb_spec n 0) as [->|Hn]; simpl.
    + lia.
    + specialize (IH (N.pred n)). lia.
Qed.

(** The prompt is the fixed texts around the first 50,000 code units of
    the contract, and nothing else of it. *)
Lemma buildAnalysisPrompt_length (contractText : jsstring) :
  strlen (buildAnalysisPrompt contractText)
  = 5323 + Z.min 50000 (strlen contractText).
Proof.
  unfold buildAnalysisPrompt, strlen. rewrite !length_app.
  pose proof (slice0_length 50000 contractText) as Hslice.
  change (length promptHead) with 211%nat.
  change (length BC_RTA_KNOWLEDGE) with 2571%nat.
  change (length promptTask) with 2461%nat.
  change (length promptTail) with 80%nat.
  lia.
Qed.

(** Two prompts are equal only if the embedded parts are. *)
Lemma buildAnalysisPrompt_inj (a b : jsstring) :
  buildAnalysisPrompt a = buildAnalysisPrompt b ->
  slice0 50000 a = slice0 50000 b.
Proof.
  unfold buildAnalysisPrompt. intros H.
  do 3 apply app_inv_head in H. apply app_inv_tail in H. exact H.
Qed.

(** C9.  The prompt is a function of the contract text that uses only its
    first 50,000 code units: two texts that agree on them give the same
    prompt, code unit for code unit. *)
Theorem buildAnalysisPrompt_first_50000 (a b : jsstring) :
  slice0 50000 a = slice0 50000 b ->
  buildAnalysisPrompt a = buildAnalysisPrompt b.
Proof.
  intros H. unfold buildAnalysisPrompt. rewrite H. reflexivity.
Qed.

(** Slicing at the length of a prefix gives the prefix. *)
Lemma slice0_app (p q : jsstring) :
  slice0 (N.of_nat (length p)) (p ++ q) = p.
Proof.
  induction p as [|c p IH].
  - destruct q; reflexivity.
  - cbn [length app slice0]. rewrite Nat2N.inj_succ.
    destruct (N.eqb_spec (N.succ (N.of_nat (length p))) 0) as [H|_]; [lia|].
    rewrite N.pred_succ, IH. reflexivity.
Qed.

Lemma slice0_longText (c : N) :
  slice0 50000 (repeat 97%N (N.to_nat 50000) ++ [c])
  = repeat 97%N (N.to_nat 50000).
Proof.
  rewrite <- (slice0_app (repeat 97%N (N.to_nat 50000)) [c]) at 2.
  rewrite repeat_length, N2Nat.id. reflexivity.
Qed.

Lemma buildAnalysisPrompt_first_50000_witness :
  last longTextA 0%N = 120%N
  /\ last longTextB 0%N = 121%N
  /\ buildAnalysisPrompt longTextA = buildAnalysisPrompt longTextB.
Proof.
  split; [apply last_last|].
  split; [apply last_last|].
  apply (buildAnalysisPrompt_first_50000 longTextA longTextB).
  unfold longTextA, longTextB. rewrite !slice0_longText. reflexivity.
Defined.

(** ** The preconditions of the entry point *)

(** C7.  When no key is configured (undefined or empty), or the trimmed
    contract text has fewer than 100 code units, the entry point throws at
    once, NO_API_KEY in the first case and INVALID_INPUT otherwise, and
    its trace is empty: no model was obtained, no prompt built, no request
    sent and no sleep taken. *)
Theorem analyze_preconditions (env : Env) (contractText : jsstring)
    (maxRetries : option Z) :
  apiKey env = None \/ apiKey env = Some []
  \/ strlen (trim contractText) < 100 ->
  analyzeContractWithGemini env contractText maxRetries
  = ([], Throws
           match apiKey env with
           | Some (_ :: _) =>
               GeminiError "Contract text too short for analysis"
                           "INVALID_INPUT"
           | _ => GeminiError "Gemini API key not configured" "NO_API_KEY"
           end).
Proof.
  intros H. unfold analyzeContractWithGemini, keyConfigured.
  destruct (apiKey env) as [[|c key]|]; simpl; try reflexivity.
  destruct H as [H|[H|H]]; try discriminate.
  apply Z.ltb_lt in H. rewrite H, orb_true_r. reflexivity.
Qed.

Lemma analyze_preconditions_witness :
  analyzeContractWithGemini (mkEnv None silentModel) sampleContract None
  = ([], Throws (GeminiError "Gemini API key not configured" "NO_API_KEY"))
  /\ analyzeContractWithGemini (mkEnv sampleKey silentModel)
       (lit "   Rent: $2,000 per month.   ") (Some 5)
     = ([], Throws (GeminiError "Contract text too short for analysis"
                                "INVALID_INPUT")).
Proof.
  split.
  - apply (analyze_preconditions (mkEnv None silentModel) sampleContract None).
    left. reflexivity.
  - apply (analyze_preconditions (mkEnv sampleKey silentModel)
             (lit "   Rent: $2,000 per month.   ") (Some 5)).
    right. right. vm_compute. reflexivity.
Defined.

(** ** Method and confidence of an AI result *)

(** C5.  Every AnalysisResult that the AI path returns has the analysis
    method of the AI path (the literal 'gemini', the other value of the
    enumeration being 'keyword') and the confidence 95, whatever the
    input. *)
Theorem ai_result_method_and_confidence (env : Env) (contractText : jsstring)
    (maxRetries : option Z) (r : AnalysisResult.t) :
  snd (analyzeContractWithGemini env contractText maxRetries) = Returns r ->
  AnalysisResult.analysisMethod r = gemini
  /\ AnalysisResult.confidence r = 95.
Proof.
  intros H. apply analyze_returns in H as (i & text & _ & Hparse).
  apply parseGeminiResponse_returns in Hparse
    as (data & flagged & _ & _ & _ & ->).
  split; reflexivity.
Qed.

Lemma ai_result_method_and_confidence_witness :
  exists r : AnalysisResult.t,
    snd (analyzeContractWithGemini sampleEnv sampleContract None) = Returns r
    /\ AnalysisResult.analysisMethod r = gemini
    /\ AnalysisResult.confidence r = 95.
Proof.
  eexists. split.
  - vm_compute. reflexivity.
  - apply (ai_result_method_and_confidence sampleEnv sampleContract None).
    vm_compute. reflexivity.
Defined.

(** ** The two gates of the parser *)

Lemma truthy_object (v : jsvalue) :
  negb (truthy v) || negb (typeof v =? "object")%string
  = negb (objectOrArray v).
Proof.
  destruct v as [| |[|]|m e|[|c s]|l|ps]; try reflexivity.
  cbn. destruct (numIsZero m e); reflexivity.
Qed.

Lemma truthy_string (v : jsvalue) :
  negb (truthy v) || negb (typeof v =? "string")%string
  = negb (nonEmptyString v).
Proof.
  destruct v as [| |[|]|m e|[|c s]|l|ps]; try reflexivity.
  cbn. destruct (numIsZero m e); reflexivity.
Qed.

Lemma typeof_number (v : jsvalue) :
  (typeof v =? "number")%string = isNumber v.
Proof. destruct v; reflexivity. Qed.

Lemma includes_nonEmpty (v : jsvalue) :
  includes validRiskLevels v = true -> nonEmptyString v = true.
Proof.
  destruct v as [| |b|m e|[|c s]|l|ps]; try discriminate; reflexivity.
Qed.

Lemma validateAnalysisResult_accepts (data : jsvalue) :
  validateAnalysisResult data = accepts data.
Proof.
  unfold validateAnalysisResult, accepts, scoreInRange, riskLevelValid.
  rewrite !truthy_object, !truthy_string, typeof_number.
  destruct data as [| |b|m e|s|l|props]; try reflexivity.
  cbn [objectOrArray isObject negb andb].
  pose proof (includes_nonEmpty (get (VObj props) "riskLevel")) as Hlevel.
  destruct (get (VObj props) "riskLevel") as [| |b|m e|[|c s]|l|ps];
    cbn [nonEmptyString isString negb andb] in *;
    destruct (objectOrArray (get (VObj props) "keyDetails")),
             (isArray (get (VObj props) "flaggedClauses")),
             (isNumber (get (VObj props) "overallRiskScore")),
             (nonEmptyString (get (VObj props) "summary")),
             (isArray (get (VObj props) "recommendations")),
             (lt0 (get (VObj props) "overallRiskScore")),
             (gt100 (get (VObj props) "overallRiskScore"));
    try reflexivity;
    cbn [negb andb orb];
    match goal with
    | |- context [includes ?l ?v] =>
        destruct (includes l v);
        first [reflexivity | discriminate (Hlevel eq_refl)]
    | _ => idtac
    end.
Qed.

Lemma mapClauses_returns (clauses : list jsvalue) :
  forall index : nat,
    forallb notNull clauses = true ->
    exists flagged, mapClauses clauses index = Returns flagged
                    /\ length flagged = length clauses.
Proof.
  induction clauses as [|c rest IH]; intros index H.
  - exists []. split; reflexivity.
  - cbn [forallb] in H. apply andb_true_iff in H as [Hc Hrest].
    destruct (IH (S index) Hrest) as (flagged & Hmap & Hlen).
    cbn [mapClauses]. rewrite Hmap.
    destruct c; try discriminate; cbn; eexists; (split; [reflexivity|]);
      cbn; rewrite Hlen; reflexivity.
Qed.

Lemma mapClauses_throws (clauses : list jsvalue) :
  forall index : nat,
    forallb notNull clauses = false ->
    mapClauses clauses index = Throws nullPropertyError.
Proof.
  induction clauses as [|c rest IH]; intros index H.
  - discriminate.
  - cbn [forallb] in H. cbn [mapClauses].
    destruct c; try reflexivity; cbn [notNull andb] in H;
      cbn [convertClause bind]; rewrite (IH (S index) H); reflexivity.
Qed.

(** C10.  There is a response with every field of the schema, each of the
    declared type, that the validator rejects, so that the parser throws
    VALIDATION_ERROR: its summary is the empty string.  The required-field
    checks test truthiness, so an empty summary or an empty riskLevel is
    never valid. *)
Theorem empty_summary_fails_validation :
  (exists data : jsvalue,
     JSON_parse (cleanedResponse emptySummaryResponse) = Some data
     /\ meetsSchema data = true
     /\ get data "summary" = VStr []
     /\ validateAnalysisResult data = false)
  /\ parseGeminiResponse emptySummaryResponse
     = Throws (GeminiError "Invalid response structure from Gemini"
                           "VALIDATION_ERROR")
  /\ (forall data : jsvalue,
        get data "summary" = VStr [] \/ get data "riskLevel" = VStr [] ->
        validateAnalysisResult data = false).
Proof.
  split; [|split].
  - eexists. split; [vm_compute; reflexivity|].
    repeat split; vm_compute; reflexivity.
  - vm_compute. reflexivity.
  - intros data H. rewrite validateAnalysisResult_accepts. unfold accepts.
    destruct H as [H|H].
    + rewrite H. cbn [nonEmptyString]. rewrite !andb_false_r. reflexivity.
    + unfold riskLevelValid. rewrite H.
      change (includes validRiskLevels (VStr [])) with false.
      apply andb_false_r.
Qed.

(** C3, as the code has it.  The parser throws PARSE_ERROR exactly when
    JSON.parse rejects the text left after the code fences are stripped.
    It throws VALIDATION_ERROR exactly when the parsed value is not
    accepted: it is not an object, or keyDetails is neither an object nor
    an array, or flaggedClauses or recommendations is not an array, or
    overallRiskScore is not a number from 0 to 100, or riskLevel is not
    one of the four levels, or summary is not a string that is not empty.
    A text that passes both gates yields an AnalysisResult exactly when no
    element of flaggedClauses is null; with a null element the conversion
    throws a TypeError. *)
Theorem parseGeminiResponse_gates (response : jsstring) :
  (errorCode (parseGeminiResponse response) = Some "PARSE_ERROR"
   <-> JSON_parse (cleanedResponse response) = None)
  /\ (forall data : jsvalue,
        JSON_parse (cleanedResponse response) = Some data ->
        (errorCode (parseGeminiResponse response) = Some "VALIDATION_ERROR"
         <-> accepts data = false)
        /\ (accepts data = true ->
            forallb notNull (elements (get data "flaggedClauses")) = true ->
            exists r, parseGeminiResponse response = Returns r
                      /\ length (AnalysisResult.flaggedClauses r)
                         = length (elements (get data "flaggedClauses")))
        /\ (accepts data = true ->
            forallb notNull (elements (get data "flaggedClauses")) = false ->
            parseGeminiResponse response = Throws nullPropertyError)).
Proof.
  unfold parseGeminiResponse. split.
  - destruct (JSON_parse (cleanedResponse response)) as [data|].
    + split; [|discriminate].
      destruct (validateAnalysisResult data); cbn [negb]; [|discriminate].
      destruct (mapClauses _ 0) as [flagged|[m c|m|]] eqn:Hmap;
        cbn; try discriminate.
      intros H. exfalso.
      destruct (forallb notNull (elements (get data "flaggedClauses")))
        eqn:Hnull.
      * apply (mapClauses_returns _ 0) in Hnull as (f & Hf & _). congruence.
      * apply (mapClauses_throws _ 0) in Hnull.
        unfold nullPropertyError in Hnull. congruence.
    + split; reflexivity.
  - intros data ->. rewrite validateAnalysisResult_accepts.
    split; [|split].
    + destruct (accepts data); cbn [negb]; [|split; reflexivity].
      split; [|discriminate].
      destruct (forallb notNull (elements (get data "flaggedClauses")))
        eqn:Hnull.
      * apply (mapClauses_returns _ 0) in Hnull as (f & -> & _). discriminate.
      * apply (mapClauses_throws _ 0) in Hnull as ->. discriminate.
    + intros -> Hnull. cbn [negb].
      apply (mapClauses_returns _ 0) in Hnull as (f & -> & Hlen).
      cbn. eexists. split; [reflexivity|exact Hlen].
    + intros -> Hnull. cbn [negb].
      apply (mapClauses_throws _ 0) in Hnull as ->. reflexivity.
Qed.

Lemma parseGeminiResponse_gates_counterexample :
  (exists data : jsvalue,
     JSON_parse (cleanedResponse emptySummaryResponse) = Some data
     /\ meetsSchema data = true
     /\ errorCode (parseGeminiResponse emptySummaryResponse)
        = Some "VALIDATION_ERROR")
  /\ (exists data : jsvalue,
        JSON_parse (cleanedResponse nullClauseResponse) = Some data
        /\ meetsSchema data = true
        /\ validateAnalysisResult data = true
        /\ parseGeminiResponse nullClauseResponse = Throws nullPropertyError)
  /\ (exists (data : jsvalue) (r : AnalysisResult.t),
        JSON_parse (cleanedResponse arrayKeyDetailsResponse) = Some data
        /\ meetsSchema data = false
        /\ parseGeminiResponse arrayKeyDetailsResponse = Returns r).
Proof.
  split; [|split].
  - eexists. split; [vm_compute; reflexivity|].
    split; vm_compute; reflexivity.
  - eexists. split; [vm_compute; reflexivity|].
    repeat split; vm_compute; reflexivity.
  - eexists. eexists. split; [vm_compute; reflexivity|].
    split; vm_compute; reflexivity.
Qed.

(** ** The declared score *)

(** C1, as the code has it.  On the AI path the declared overallRiskScore
    goes into the returned AnalysisResult as it was declared, after the
    range check from 0 to 100 alone: it is not compared with the score of
    the flagged clauses, and nothing is recomputed. *)
Theorem declared_score_is_returned (response : jsstring)
    (r : AnalysisResult.t) :
  parseGeminiResponse response = Returns r ->
  exists data : jsvalue,
    JSON_parse (cleanedResponse response) = Some data
    /\ AnalysisResult.overallRiskScore r = get data "overallRiskScore"
    /\ isNumber (get data "overallRiskScore") = true
    /\ lt0 (get data "overallRiskScore") = false
    /\ gt100 (get data "overallRiskScore") = false.
Proof.
  intros H.
  apply parseGeminiResponse_returns in H
    as (data & flagged & Hparse & Hvalid & _ & ->).
  exists data. split; [exact Hparse|]. split; [reflexivity|].
  rewrite validateAnalysisResult_accepts in Hvalid.
  unfold accepts, scoreInRange in Hvalid.
  repeat match goal with
         | Hconj : (_ && _) = true |- _ => apply andb_true_iff in Hconj as [? ?]
         end.
  repeat match goal with
         | Hneg : negb _ = true |- _ => apply negb_true_iff in Hneg
         end.
  repeat split; assumption.
Qed.

Lemma declared_score_is_returned_witness :
  exists (r : AnalysisResult.t) (data : jsvalue),
    parseGeminiResponse sampleResponse = Returns r
    /\ JSON_parse (cleanedResponse sampleResponse) = Some data
    /\ AnalysisResult.overallRiskScore r = get data "overallRiskScore".
Proof.
  eexists.
  assert (Hparse : parseGeminiResponse sampleResponse = Returns _)
    by (vm_compute; reflexivity).
  destruct (declared_score_is_returned sampleResponse _ Hparse)
    as (data & Hdata & Hscore & _).
  exists data. split; [exact Hparse|]. split; [exact Hdata|exact Hscore].
Defined.

Lemma declared_score_counterexample :
  exists r : AnalysisResult.t,
    parseGeminiResponse inconsistentScoreResponse = Returns r
    /\ length (AnalysisResult.flaggedClauses r) = 3%nat
    /\ calculateRiskScore (AnalysisResult.flaggedClauses r) = 90
    /\ AnalysisResult.overallRiskScore r = VNum 0 0.
Proof.
  eexists. split; [vm_compute; reflexivity|].
  repeat split; vm_compute; reflexivity.
Qed.

(** ** Key details *)

Lemma entriesLabelled_app (label : string) (a b : list KeyDetail.t) :
  entriesLabelled label (a ++ b)
  = entriesLabelled label a ++ entriesLabelled label b.
Proof. apply filter_app. Qed.

Lemma entriesLabelled_pushIf (label : string) (v : jsvalue)
    (label' category : string) :
  entriesLabelled label (pushIf v label' category)
  = if (label' =? label)%string then pushIf v label' category else [].
Proof.
  unfold entriesLabelled, pushIf.
  destruct (truthy v); cbn [filter KeyDetail.label];
    destruct (label' =? label)%string; reflexivity.
Qed.

Lemma convertKeyDetails_labels (detailsMap : jsvalue) :
  map KeyDetail.label (convertKeyDetails detailsMap)
  = map labelOf
      (filter (fun f => truthy (get detailsMap (fieldOf f))) keyDetailFields).
Proof.
  unfold convertKeyDetails, pushIf, keyDetailFields.
  cbn [filter fieldOf fst].
  destruct (truthy (get detailsMap "propertyAddress")),
           (truthy (get detailsMap "landlordName")),
           (truthy (get detailsMap "monthlyRent")),
           (truthy (get detailsMap "securityDeposit")),
           (truthy (get detailsMap "petDeposit")),
           (truthy (get detailsMap "leaseStartDate")),
           (truthy (get detailsMap "leaseEndDate")),
           (truthy (get detailsMap "noticePeriod")); reflexivity.
Qed.

(** Selecting fields keeps their labels distinct. *)
Lemma selected_labels_NoDup (keep : string * string * string -> bool)
    (fields : list (string * string * string)) :
  NoDup (map labelOf fields) ->
  NoDup (map labelOf (filter keep fields)).
Proof.
  intros Hdistinct.
  induction fields as [|fld rest IH]; cbn [map filter] in *.
  - constructor.
  - apply NoDup_cons_iff in Hdistinct as [Hfresh Hrest].
    destruct (keep fld); [|exact (IH Hrest)].
    cbn [map]. apply NoDup_cons; [|exact (IH Hrest)].
    intros Hin. apply Hfresh.
    apply in_map_iff in Hin as (other & Hlabel & Hother).
    apply filter_In in Hother as [Hother _].
    rewrite <- Hlabel. apply in_map, Hother.
Qed.

Lemma keyDetailFields_labels_NoDup : NoDup (map labelOf keyDetailFields).
Proof.
  cbn. repeat constructor; cbn; intuition discriminate.
Qed.

(** C8, as the code has it.  For every validated AI response, each of the
    key-detail fields propertyAddress, landlordName, monthlyRent,
    securityDeposit, petDeposit, leaseStartDate, leaseEndDate and
    noticePeriod whose value is truthy (neither null nor the empty string)
    becomes exactly one KeyDetail entry, with the value as declared, and a
    field whose value is null, absent or empty contributes no entry; no
    two KeyDetail entries of a result share a label. *)
Theorem keyDetails_of_converted_fields (response : jsstring)
    (r : AnalysisResult.t) :
  parseGeminiResponse response = Returns r ->
  exists data : jsvalue,
    JSON_parse (cleanedResponse response) = Some data
    /\ (forall field label category : string,
          In (field, label, category) keyDetailFields ->
          entriesLabelled label (AnalysisResult.keyDetails r)
          = if truthy (get (get data "keyDetails") field)
            then [KeyDetail.mk label (get (get data "keyDetails") field)
                    category]
            else [])
    /\ NoDup (map KeyDetail.label (AnalysisResult.keyDetails r)).
Proof.
  intros H.
  apply parseGeminiResponse_returns in H
    as (data & flagged & Hparse & _ & _ & ->).
  exists data. split; [exact Hparse|].
  cbn [AnalysisResult.keyDetails]. split.
  - intros field label category Hin.
    unfold convertKeyDetails.
    rewrite !entriesLabelled_app, !entriesLabelled_pushIf.
    cbn [In keyDetailFields] in Hin.
    repeat (destruct Hin as [Hin|Hin];
            [injection Hin as <- <- <-; cbn [String.eqb Ascii.eqb Bool.eqb app];
             unfold pushIf; rewrite ?app_nil_r; reflexivity|]).
    contradiction.
  - rewrite convertKeyDetails_labels.
    apply selected_labels_NoDup, keyDetailFields_labels_NoDup.
Qed.

Lemma keyDetails_of_converted_fields_witness :
  exists (r : AnalysisResult.t) (data : jsvalue),
    parseGeminiResponse sampleResponse = Returns r
    /\ JSON_parse (cleanedResponse sampleResponse) = Some data
    /\ entriesLabelled "Monthly Rent" (AnalysisResult.keyDetails r)
       = [KeyDetail.mk "Monthly Rent" (VStr (lit "$2,000")) "rent"]
    /\ entriesLabelled "Pet Deposit" (AnalysisResult.keyDetails r) = []
    /\ NoDup (map KeyDetail.label (AnalysisResult.keyDetails r)).
Proof.
  eexists.
  assert (Hparse : parseGeminiResponse sampleResponse = Returns _)
    by (vm_compute; reflexivity).
  destruct (keyDetails_of_converted_fields sampleResponse _ Hparse)
    as (data & Hdata & Hfields & Hnodup).
  exists data. split; [exact Hparse|]. split; [exact Hdata|].
  assert (Hd : Some data = JSON_parse (cleanedResponse sampleResponse))
    by (symmetry; exact Hdata).
  vm_compute in Hd. injection Hd as ->.
  split; [|split; [|exact Hnodup]].
  - rewrite (Hfields "monthlyRent" "Monthly Rent" "rent")
      by (cbn; tauto).
    vm_compute. reflexivity.
  - rewrite (Hfields "petDeposit" "Pet Deposit" "security_deposit")
      by (cbn; tauto).
    vm_compute. reflexivity.
Defined.

Lemma keyDetails_counterexample :
  exists (data : jsvalue) (r : AnalysisResult.t),
    JSON_parse (cleanedResponse tenantNameResponse) = Some data
    /\ parseGeminiResponse tenantNameResponse = Returns r
    /\ get (get data "keyDetails") "monthlyRent" = VStr []
    /\ get (get data "keyDetails") "tenantName" = VStr (lit "T. Nant")
    /\ AnalysisResult.keyDetails r = [].
Proof.
  eexists. eexists. split; [vm_compute; reflexivity|].
  repeat split; vm_compute; reflexivity.
Qed.

(** ** Code fences *)

Lemma trimStart_app_nonws (a b : jsstring) (c : N) :
  isWhiteSpace c = false ->
  trimStart (a ++ c :: b) = trimStart a ++ c :: b.
Proof.
  intros Hc. induction a as [|x a IH]; cbn [app trimStart].
  - rewrite Hc. reflexivity.
  - destruct (isWhiteSpace x); [exact IH|reflexivity].
Qed.

Lemma trimStart_ws_app (ws s : jsstring) :
  allWhiteSpace ws = true -> trimStart (ws ++ s) = trimStart s.
Proof.
  induction ws as [|w ws IH]; cbn [allWhiteSpace forallb app trimStart];
    intros H; [reflexivity|].
  apply andb_true_iff in H as [-> H]. apply IH, H.
Qed.

Lemma allWhiteSpace_rev (ws : jsstring) :
  allWhiteSpace (rev ws) = allWhiteSpace ws.
Proof.
  unfold allWhiteSpace. induction ws as [|w ws IH]; [reflexivity|].
  cbn [rev forallb]. rewrite forallb_app, IH. cbn [forallb].
  rewrite andb_true_r. apply andb_comm.
Qed.

Lemma trimEnd_app_ws (s ws : jsstring) :
  allWhiteSpace ws = true -> trimEnd (s ++ ws) = trimEnd s.
Proof.
  intros H. unfold trimEnd. rewrite rev_app_distr, trimStart_ws_app.
  - reflexivity.
  - rewrite allWhiteSpace_rev. exact H.
Qed.

Lemma trimEnd_snoc_nonws (s : jsstring) (c : N) :
  isWhiteSpace c = false -> trimEnd (s ++ [c]) = s ++ [c].
Proof.
  intros Hc. unfold trimEnd. rewrite rev_unit. cbn [trimStart].
  rewrite Hc. rewrite <- rev_unit. apply rev_involutive.
Qed.

Lemma trim_app_ws (p ws : jsstring) :
  allWhiteSpace ws = true -> trim (p ++ ws) = trim p.
Proof.
  intros Hws. unfold trim. induction p as [|c p IH]; cbn [app trimStart].
  - rewrite <- (app_nil_r ws), trimStart_ws_app by exact Hws. reflexivity.
  - destruct (isWhiteSpace c) eqn:Hc; [exact IH|].
    change (c :: p ++ ws) with ((c :: p) ++ ws).
    apply trimEnd_app_ws, Hws.
Qed.

Lemma startsWith_app_l (s a b : jsstring) :
  startsWith s (a ++ b) = true -> startsWith s a = true.
Proof.
  revert s. induction a as [|x a IH]; intros s H; [reflexivity|].
  destruct s as [|c s]; [discriminate|].
  cbn [app startsWith] in *. apply andb_true_iff in H as [-> H].
  apply IH, H.
Qed.

(** The second replace on a text that ends with the closing marker. *)
Lemma removeWsSuffixFence_app (s : jsstring) :
  removeWsSuffixFence (s ++ backquotes3) = trimEnd s.
Proof.
  unfold removeWsSuffixFence. rewrite rev_app_distr.
  cbn [rev app startsWith backquotes3].
  change ((96 =? 96)%N) with true. cbn [andb skipn].
  rewrite rev_involutive. reflexivity.
Qed.

(** What is left of a fenced block once the opening marker and its tag
    are gone. *)
Lemma removeWsSuffixFence_body (ws1 ws2 payload : jsstring) :
  allWhiteSpace ws1 = true ->
  allWhiteSpace ws2 = true ->
  removeWsSuffixFence (trimStart (ws1 ++ payload ++ ws2 ++ backquotes3))
  = trim payload.
Proof.
  intros H1 H2. rewrite (trimStart_ws_app ws1 _ H1).
  rewrite app_assoc. unfold backquotes3 at 1.
  rewrite trimStart_app_nonws by reflexivity.
  fold backquotes3. rewrite removeWsSuffixFence_app.
  apply (trim_app_ws payload ws2 H2).
Qed.

Lemma fenced_ends (tag ws1 ws2 payload : jsstring) :
  fenced tag ws1 ws2 payload
  = 96%N :: (96%N :: 96%N :: tag ++ ws1 ++ payload ++ ws2 ++ [96; 96]%N)
      ++ [96%N].
Proof.
  unfold fenced, backquotes3. cbn [app]. do 3 f_equal.
  rewrite <- !app_assoc. reflexivity.
Qed.

Lemma trim_fenced (tag ws1 ws2 payload : jsstring) :
  trim (fenced tag ws1 ws2 payload) = fenced tag ws1 ws2 payload.
Proof.
  rewrite fenced_ends. unfold trim. cbn [trimStart].
  change (isWhiteSpace 96) with false. cbn iota.
  rewrite app_comm_cons. apply trimEnd_snoc_nonws. reflexivity.
Qed.

(** Stripping the fences of a fenced payload leaves the trimmed payload;
    an opening marker without tag must not be read as one tagged [json]
    (it is not as soon as white space follows it). *)
Lemma cleanedResponse_fenced (tag ws1 ws2 payload : jsstring) :
  allWhiteSpace ws1 = true ->
  allWhiteSpace ws2 = true ->
  tag = lit "json"
  \/ (tag = []
      /\ startsWith (fenced [] ws1 ws2 payload) (lit "```json") = false) ->
  cleanedResponse (fenced tag ws1 ws2 payload) = trim payload.
Proof.
  intros H1 H2 Htag. unfold cleanedResponse. rewrite trim_fenced.
  destruct Htag as [->|[-> Hplain]].
  - change (startsWith (fenced (lit "json") ws1 ws2 payload) (lit "```json"))
      with true.
    cbn iota.
    change (removePrefixWs (lit "```json")
              (fenced (lit "json") ws1 ws2 payload))
      with (trimStart (ws1 ++ payload ++ ws2 ++ backquotes3)).
    apply removeWsSuffixFence_body; assumption.
  - rewrite Hplain.
    change (startsWith (fenced [] ws1 ws2 payload) (lit "```")) with true.
    cbn iota.
    change (removePrefixWs (lit "```") (fenced [] ws1 ws2 payload))
      with (trimStart (ws1 ++ payload ++ ws2 ++ backquotes3)).
    apply removeWsSuffixFence_body; assumption.
Qed.

(** An opening marker followed by white space is not read as [```json]. *)
Lemma fenced_plain_not_json (w : N) (ws1 ws2 payload : jsstring) :
  isWhiteSpace w = true ->
  startsWith (fenced [] (w :: ws1) ws2 payload) (lit "```json") = false.
Proof.
  intros Hw.
  change (startsWith (fenced [] (w :: ws1) ws2 payload) (lit "```json"))
    with ((w =? 106)%N
          && startsWith (ws1 ++ payload ++ ws2 ++ backquotes3) (lit "son")).
  destruct (N.eqb_spec w 106) as [->|_]; [discriminate Hw|reflexivity].
Qed.

(** A payload that has no fence of its own is only trimmed. *)
Lemma cleanedResponse_bare (payload : jsstring) :
  startsWith (trim payload) backquotes3 = false ->
  cleanedResponse payload = trim payload.
Proof.
  intros H. unfold cleanedResponse.
  change (lit "```") with backquotes3. rewrite H.
  destruct (startsWith (trim payload) (lit "```json")) eqn:Hjson;
    [|reflexivity].
  change (lit "```json") with (backquotes3 ++ lit "json") in Hjson.
  apply startsWith_app_l in Hjson. congruence.
Qed.

(** C4, as the code has it.  For every payload whose trimmed text does
    not itself begin with a code-fence marker, parsing the payload in a
    fenced block (an opening marker tagged [json] or not, any white
    space, the payload, any white space, the closing marker; an opening
    marker without tag not being directly followed by [json]) gives what
    parsing the bare payload gives: the same AnalysisResult or the same
    exception. *)
Theorem fenced_parses_like_bare (tag ws1 ws2 payload : jsstring) :
  allWhiteSpace ws1 = true ->
  allWhiteSpace ws2 = true ->
  tag = lit "json"
  \/ (tag = []
      /\ startsWith (fenced [] ws1 ws2 payload) (lit "```json") = false) ->
  startsWith (trim payload) backquotes3 = false ->
  parseGeminiResponse (fenced tag ws1 ws2 payload)
  = parseGeminiResponse payload.
Proof.
  intros H1 H2 Htag Hbare. unfold parseGeminiResponse.
  rewrite (cleanedResponse_fenced tag ws1 ws2 payload H1 H2 Htag).
  rewrite (cleanedResponse_bare payload Hbare).
  reflexivity.
Qed.

Lemma fenced_parses_like_bare_witness :
  parseGeminiResponse (fenced (lit "json") lineFeed lineFeed sampleResponse)
  = parseGeminiResponse sampleResponse
  /\ parseGeminiResponse
       (fenced [] lineFeed lineFeed (lit "I cannot analyze this."))
     = parseGeminiResponse (lit "I cannot analyze this.")
  /\ errorCode (parseGeminiResponse (lit "I cannot analyze this."))
     = Some "PARSE_ERROR".
Proof.
  split; [|split].
  - apply (fenced_parses_like_bare (lit "json") lineFeed lineFeed
             sampleResponse).
    + reflexivity.
    + reflexivity.
    + left. reflexivity.
    + vm_compute. reflexivity.
  - apply (fenced_parses_like_bare [] lineFeed lineFeed
             (lit "I cannot analyze this.")).
    + reflexivity.
    + reflexivity.
    + right. split; reflexivity.
    + vm_compute. reflexivity.
  - vm_compute. reflexivity.
Defined.

(** A payload that is a fenced block already: in a second fence it no
    longer parses. *)
Lemma fenced_counterexample :
  exists r : AnalysisResult.t,
    parseGeminiResponse (fenced (lit "json") lineFeed lineFeed sampleResponse)
    = Returns r
    /\ parseGeminiResponse
         (fenced (lit "json") lineFeed lineFeed
            (fenced (lit "json") lineFeed lineFeed sampleResponse))
       = Throws (GeminiError "Failed to parse Gemini response as JSON"
                             "PARSE_ERROR").
Proof.
  eexists. split; vm_compute; reflexivity.
Qed.

(** ** Retries *)

(** The attempts that fail with a GeminiError are those whose text is
    empty, is not JSON once the fences are stripped, or parses to a value
    that validateAnalysisResult rejects. *)
Lemma isGeminiFailure_cases (reply : Reply) :
  isGeminiFailure (attemptBody reply) = true
  <-> exists text : jsstring,
        reply = Text text
        /\ (text = []
            \/ JSON_parse (cleanedResponse text) = None
            \/ exists data : jsvalue,
                 JSON_parse (cleanedResponse text) = Some data
                 /\ accepts data = false).
Proof.
  destruct reply as [text|[message|]]; cbn [attemptBody isGeminiFailure].
  - destruct text as [|c text]; cbn [truthy negb isGeminiFailure].
    + split; [|reflexivity]. intros _. exists []. auto.
    + unfold parseGeminiResponse.
      destruct (JSON_parse (cleanedResponse (c :: text))) as [data|]
        eqn:Hparse.
      * rewrite validateAnalysisResult_accepts.
        destruct (accepts data) eqn:Haccepts; cbn [negb isGeminiFailure].
        -- split.
           ++ intros H. exfalso.
              destruct (forallb notNull (elements (get data "flaggedClauses")))
                eqn:Hnull.
              ** apply (mapClauses_returns _ 0) in Hnull as (f & Hf & _).
                 rewrite Hf in H. discriminate.
              ** apply (mapClauses_throws _ 0) in Hnull.
                 rewrite Hnull in H. discriminate.
           ++ intros (t & Ht & Hcases). injection Ht as <-.
              destruct Hcases as [He|[Hn|(d & Hd & Ha)]]; congruence.
        -- split; [|reflexivity]. intros _. exists (c :: text).
           split; [reflexivity|]. right. right. exists data. auto.
      * split; [|reflexivity]. intros _. exists (c :: text). auto.
  - split; [discriminate|]. intros (t & Ht & _). discriminate.
  - split; [discriminate|]. intros (t & Ht & _). discriminate.
Qed.

(** What the transport throws is not a GeminiError, and comes out as
    UNKNOWN_ERROR. *)
Lemma transport_failure_surfaced (message : option string) :
  isGeminiFailure (attemptBody (Failure message)) = false
  /\ errorCode (surfaced (attemptBody (Failure message)))
     = Some "UNKNOWN_ERROR".
Proof. destruct message; split; reflexivity. Qed.

Lemma retryLoop_backoff (env : Env) (prompt : jsstring) (maxRetries : Z) :
  forall (k : nat) (attempt : Z),
    attempt + Z.of_nat k < maxRetries ->
    (forall i : Z, attempt <= i < attempt + Z.of_nat k ->
                   isGeminiFailure (attemptBody (model env i)) = true) ->
    attempt + Z.of_nat k = maxRetries - 1
    \/ isGeminiFailure (attemptBody (model env (attempt + Z.of_nat k)))
       = false ->
    retryLoop (Z.to_nat (maxRetries - attempt)) env prompt maxRetries attempt
    = (backoffTrace env prompt k attempt ++ [GenerateContent prompt],
       surfaced (attemptBody (model env (attempt + Z.of_nat k)))).
Proof.
  induction k as [|k IH]; intros attempt Hlt Hfail Hlast.
  - rewrite Z.add_0_r in *.
    destruct (Z.to_nat (maxRetries - attempt)) as [|n] eqn:Hn; [lia|].
    cbn [retryLoop backoffTrace app].
    destruct (attemptBody (model env attempt)) as [r|[m c|m|]];
      try reflexivity.
    destruct Hlast as [Hlast|Hlast]; [|discriminate].
    rewrite Hlast, Z.eqb_refl. reflexivity.
  - destruct (Z.to_nat (maxRetries - attempt)) as [|n] eqn:Hn; [lia|].
    assert (Hn' : n = Z.to_nat (maxRetries - (attempt + 1))) by lia.
    cbn [retryLoop backoffTrace app].
    pose proof (Hfail attempt ltac:(lia)) as Hnow.
    destruct (attemptBody (model env attempt)) as [r|[m c|m|]];
      try discriminate.
    destruct (Z.eqb_spec attempt (maxRetries - 1)) as [Heq|_]; [lia|].
    cbn [negb]. rewrite Hn', (IH (attempt + 1)).
    + replace (attempt + 1 + Z.of_nat k) with (attempt + Z.of_nat (S k))
        by lia.
      reflexivity.
    + lia.
    + intros i Hi. apply Hfail. lia.
    + replace (attempt + 1 + Z.of_nat k) with (attempt + Z.of_nat (S k))
        by lia.
      exact Hlast.
Qed.

Lemma sleepsOf_backoffTrace (env : Env) (prompt : jsstring) :
  forall (k : nat) (attempt : Z),
    sleepsOf (backoffTrace env prompt k attempt ++ [GenerateContent prompt])
    = map (fun i => 2 ^ (attempt + Z.of_nat i) * 1000) (seq 0 k).
Proof.
  induction k as [|k IH]; intros attempt.
  - reflexivity.
  - cbn [backoffTrace app sleepsOf flat_map seq map].
    fold (sleepsOf (backoffTrace env prompt k (attempt + 1)
                      ++ [GenerateContent prompt])).
    rewrite IH, <- seq_shift, map_map, Z.add_0_r. cbn [app]. f_equal.
    apply map_ext. intros i. f_equal. f_equal. lia.
Qed.

Lemma requestsOf_backoffTrace (env : Env) (prompt : jsstring) :
  forall (k : nat) (attempt : Z),
    requestsOf (backoffTrace env prompt k attempt ++ [GenerateContent prompt])
    = S k.
Proof.
  unfold requestsOf.
  induction k as [|k IH]; intros attempt.
  - reflexivity.
  - cbn [backoffTrace app filter length]. rewrite IH. reflexivity.
Qed.

(** C2, as the code has it.  With a key configured and a text that is
    long enough, every attempt that fails with a GeminiError (empty
    response, text that is not JSON, value that fails validation) before
    the last one of the budget (3 attempts unless given) is followed by
    its warning, a sleep of 2 ^ attempt seconds and the next attempt, one
    after the other; the loop ends at the first attempt [k] that is the
    last of the budget or does not fail with a GeminiError, and returns
    what that attempt gave.  An exception of the transport (network, rate
    limit) is not retried: it ends the loop at once and comes out wrapped
    as UNKNOWN_ERROR. *)
Theorem gemini_failures_are_retried (env : Env) (contractText : jsstring)
    (maxRetriesArg : option Z) (k : nat) :
  keyConfigured env = true ->
  100 <= strlen (trim contractText) ->
  Z.of_nat k < maxRetriesOf maxRetriesArg ->
  (forall i : Z, 0 <= i < Z.of_nat k ->
                 isGeminiFailure (attemptBody (model env i)) = true) ->
  Z.of_nat k = maxRetriesOf maxRetriesArg - 1
  \/ isGeminiFailure (attemptBody (model env (Z.of_nat k))) = false ->
  let prompt := buildAnalysisPrompt contractText in
  let run := analyzeContractWithGemini env contractText maxRetriesArg in
  run = (GetModel :: BuildPrompt
           :: backoffTrace env prompt k 0 ++ [GenerateContent prompt],
         surfaced (attemptBody (model env (Z.of_nat k))))
  /\ sleepsOf (fst run) = map (fun i => 2 ^ Z.of_nat i * 1000) (seq 0 k)
  /\ requestsOf (fst run) = S k.
Proof.
  intros Hkey Hlen Hk Hfail Hlast prompt run.
  assert (Hrun : run = (GetModel :: BuildPrompt
                          :: backoffTrace env prompt k 0
                               ++ [GenerateContent prompt],
                        surfaced (attemptBody (model env (Z.of_nat k))))).
  { unfold run, analyzeContractWithGemini.
    fold (maxRetriesOf maxRetriesArg). rewrite Hkey. cbn [negb].
    assert (Htext : truthy (VStr contractText) = true).
    { destruct contractText; [|reflexivity].
      exfalso. revert Hlen. vm_compute. intros Hc. apply Hc. reflexivity. }
    rewrite Htext. cbn [negb orb].
    destruct (Z.ltb_spec (strlen (trim contractText)) 100) as [Hshort|_];
      [lia|].
    fold prompt.
    pose proof (retryLoop_backoff env prompt (maxRetriesOf maxRetriesArg)
                  k 0) as Hloop.
    rewrite Z.sub_0_r, Z.add_0_l in Hloop.
    rewrite Hloop; [reflexivity|exact Hk|exact Hfail|exact Hlast]. }
  split; [exact Hrun|]. rewrite Hrun. cbn [fst]. split.
  - change (sleepsOf (GetModel :: BuildPrompt :: ?t)) with (sleepsOf t).
    rewrite sleepsOf_backoffTrace. reflexivity.
  - change (requestsOf (GetModel :: BuildPrompt :: ?t)) with (requestsOf t).
    apply requestsOf_backoffTrace.
Qed.

Lemma gemini_failures_are_retried_witness :
  fst (analyzeContractWithGemini flakyEnv sampleContract None)
  = [ GetModel; BuildPrompt;
      GenerateContent (buildAnalysisPrompt sampleContract);
      Warn 1 "Empty response from Gemini"; Sleep 1000;
      GenerateContent (buildAnalysisPrompt sampleContract);
      Warn 2 "Invalid response structure from Gemini"; Sleep 2000;
      GenerateContent (buildAnalysisPrompt sampleContract) ]
  /\ snd (analyzeContractWithGemini flakyEnv sampleContract None)
     = parseGeminiResponse sampleResponse.
Proof.
  assert (H0 : isGeminiFailure (attemptBody (model flakyEnv 0)) = true)
    by (vm_compute; reflexivity).
  assert (H1 : isGeminiFailure (attemptBody (model flakyEnv 1)) = true)
    by (vm_compute; reflexivity).
  destruct (gemini_failures_are_retried flakyEnv sampleContract None 2)
    as (Hrun & _ & _).
  - reflexivity.
  - vm_compute. discriminate.
  - reflexivity.
  - intros i Hi. assert (Hcases : i = 0 \/ i = 1) by lia.
    destruct Hcases as [-> | ->]; assumption.
  - left. reflexivity.
  - rewrite Hrun. split; vm_compute; reflexivity.
Defined.

Lemma network_failure_counterexample :
  maxRetriesOf None = 3
  /\ analyzeContractWithGemini networkDownEnv sampleContract None
     = ([GetModel; BuildPrompt;
         GenerateContent (buildAnalysisPrompt sampleContract)],
        Throws (GeminiError "fetch failed" "UNKNOWN_ERROR")).
Proof.
  split; vm_compute; reflexivity.
Qed.

(** * Further properties *)

From Stdlib Require DecimalNat.

(** ** The entry point, whatever the model does *)

Lemma analyze_passes_preconditions (env : Env) (contractText : jsstring)
    (maxRetriesArg : option Z) :
  keyConfigured env = true ->
  100 <= strlen (trim contractText) ->
  analyzeContractWithGemini env contractText maxRetriesArg
  = (GetModel :: BuildPrompt
       :: fst (retryLoop (Z.to_nat (maxRetriesOf maxRetriesArg)) env
                 (buildAnalysisPrompt contractText)
                 (maxRetriesOf maxRetriesArg) 0),
     snd (retryLoop (Z.to_nat (maxRetriesOf maxRetriesArg)) env
            (buildAnalysisPrompt contractText)
            (maxRetriesOf maxRetriesArg) 0)).
Proof.
  intros Hkey Hlen. unfold analyzeContractWithGemini.
  fold (maxRetriesOf maxRetriesArg). rewrite Hkey. cbn [negb].
  assert (Htext : truthy (VStr contractText) = true).
  { destruct contractText; [|reflexivity].
    exfalso. revert Hlen. vm_compute. intros Hc. apply Hc. reflexivity. }
  rewrite Htext. cbn [negb orb].
  destruct (Z.ltb_spec (strlen (trim contractText)) 100) as [Hshort|_];
    [lia|].
  destruct (retryLoop _ env _ _ 0) as [trace completion]. reflexivity.
Qed.

(** A run that gets past the preconditions had them. *)
Lemma analyze_preconditions_held (env : Env) (contractText : jsstring)
    (maxRetriesArg : option Z) :
  keyConfigured env = false \/ strlen (trim contractText) < 100 ->
  exists message code,
    analyzeContractWithGemini env contractText maxRetriesArg
    = ([], Throws (GeminiError message code))
    /\ (code = "NO_API_KEY" \/ code = "INVALID_INPUT").
Proof.
  intros H. unfold analyzeContractWithGemini.
  destruct (keyConfigured env); cbn [negb].
  - destruct H as [H|H]; [discriminate|].
    apply Z.ltb_lt in H. rewrite H, orb_true_r. eauto.
  - eauto.
Qed.

(** The loop stops at some attempt [k] of the budget: the first that does
    not fail with a GeminiError, or the last one. *)
Lemma retryLoop_stops (env : Env) (maxRetries : Z) :
  forall (remaining : nat) (attempt : Z),
    remaining = Z.to_nat (maxRetries - attempt) ->
    (0 < remaining)%nat ->
    exists k : nat,
      attempt + Z.of_nat k < maxRetries
      /\ (forall i : Z, attempt <= i < attempt + Z.of_nat k ->
                        isGeminiFailure (attemptBody (model env i)) = true)
      /\ (attempt + Z.of_nat k = maxRetries - 1
          \/ isGeminiFailure (attemptBody (model env (attempt + Z.of_nat k)))
             = false).
Proof.
  induction remaining as [|n IH]; intros attempt Hrem Hpos; [lia|].
  destruct (isGeminiFailure (attemptBody (model env attempt))) eqn:Hnow.
  - destruct (Z.eq_dec attempt (maxRetries - 1)) as [Hlast|Hmore].
    + exists 0%nat. rewrite Z.add_0_r. repeat split; [lia|lia|auto].
    + destruct (IH (attempt + 1)) as (k & Hk & Hfail & Hstop); [lia|lia|].
      exists (S k). repeat split.
      * lia.
      * intros i Hi. destruct (Z.eq_dec i attempt) as [->|Hne];
          [exact Hnow|apply Hfail; lia].
      * replace (attempt + Z.of_nat (S k)) with (attempt + 1 + Z.of_nat k)
          by lia.
        exact Hstop.
  - exists 0%nat. rewrite Z.add_0_r. repeat split; [lia|lia|auto].
Qed.

(** With the preconditions met and a budget of at least one attempt, the
    run is a number of failed attempts with their sleeps, then one last
    request. *)
Lemma analyze_run (env : Env) (contractText : jsstring)
    (maxRetriesArg : option Z) :
  keyConfigured env = true ->
  100 <= strlen (trim contractText) ->
  1 <= maxRetriesOf maxRetriesArg ->
  exists k : nat,
    Z.of_nat k < maxRetriesOf maxRetriesArg
    /\ (forall i : Z, 0 <= i < Z.of_nat k ->
                      isGeminiFailure (attemptBody (model env i)) = true)
    /\ analyzeContractWithGemini env contractText maxRetriesArg
       = (GetModel :: BuildPrompt
            :: backoffTrace env (buildAnalysisPrompt contractText) k 0
                 ++ [GenerateContent (buildAnalysisPrompt contractText)],
          surfaced (attemptBody (model env (Z.of_nat k)))).
Proof.
  intros Hkey Hlen Hbudget.
  destruct (retryLoop_stops env (maxRetriesOf maxRetriesArg)
              (Z.to_nat (maxRetriesOf maxRetriesArg)) 0)
    as (k & Hk & Hfail & Hstop); [f_equal; lia|lia|].
  rewrite Z.add_0_l in *.
  exists k. split; [exact Hk|]. split; [exact Hfail|].
  rewrite (analyze_passes_preconditions env contractText maxRetriesArg
             Hkey Hlen).
  pose proof (retryLoop_backoff env (buildAnalysisPrompt contractText)
                (maxRetriesOf maxRetriesArg) k 0) as Hloop.
  rewrite Z.sub_0_r, Z.add_0_l in Hloop.
  rewrite Hloop; [reflexivity|exact Hk|exact Hfail|exact Hstop].
Qed.

(** With the preconditions met and no budget, no attempt is made. *)
Lemma analyze_without_budget (env : Env) (contractText : jsstring)
    (maxRetriesArg : option Z) :
  keyConfigured env = true ->
  100 <= strlen (trim contractText) ->
  maxRetriesOf maxRetriesArg <= 0 ->
  analyzeContractWithGemini env contractText maxRetriesArg
  = ([GetModel; BuildPrompt],
     Throws (GeminiError "Max retries exceeded" "MAX_RETRIES")).
Proof.
  intros Hkey Hlen Hbudget.
  rewrite (analyze_passes_preconditions env contractText maxRetriesArg
             Hkey Hlen).
  replace (Z.to_nat (maxRetriesOf maxRetriesArg)) with 0%nat by lia.
  reflexivity.
Qed.

(** What parseGeminiResponse throws. *)
Lemma parseGeminiResponse_throws (response : jsstring) (e : Exn) :
  parseGeminiResponse response = Throws e ->
  e = GeminiError "Failed to parse Gemini response as JSON" "PARSE_ERROR"
  \/ e = GeminiError "Invalid response structure from Gemini"
           "VALIDATION_ERROR"
  \/ e = nullPropertyError.
Proof.
  unfold parseGeminiResponse.
  destruct (JSON_parse (cleanedResponse response)) as [data|].
  - destruct (validateAnalysisResult data); cbn [negb].
    + destruct (forallb notNull (elements (get data "flaggedClauses")))
        eqn:Hnull.
      * apply (mapClauses_returns _ 0) in Hnull as (f & -> & _).
        discriminate.
      * apply (mapClauses_throws _ 0) in Hnull as ->. cbn [bind].
        intros H. injection H as <-. auto.
    + intros H. injection H as <-. auto.
  - intros H. injection H as <-. auto.
Qed.

(** What the caller gets of one attempt is a result or a GeminiError with
    one of four codes. *)
Lemma surfaced_attempt (reply : Reply) :
  (exists r, surfaced (attemptBody reply) = Returns r)
  \/ exists message code,
       surfaced (attemptBody reply) = Throws (GeminiError message code)
       /\ (code = "EMPTY_RESPONSE" \/ code = "PARSE_ERROR"
           \/ code = "VALIDATION_ERROR" \/ code = "UNKNOWN_ERROR").
Proof.
  destruct reply as [text|[message|]]; cbn [attemptBody surfaced].
  - destruct (negb (truthy (VStr text))); cbn [surfaced].
    + right. do 2 eexists. split; [reflexivity|auto].
    + destruct (parseGeminiResponse text) as [r|e] eqn:Hparse.
      * left. exists r. reflexivity.
      * right.
        apply parseGeminiResponse_throws in Hparse as [->|[->| ->]];
          unfold nullPropertyError; cbn [surfaced];
          do 2 eexists; (split; [reflexivity|auto 6]).
  - right. do 2 eexists. split; [reflexivity|auto 6].
  - right. do 2 eexists. split; [reflexivity|auto 6].
Qed.

(** X1.  Whatever the key, the text, the budget and the replies of the
    model, what analyzeContractWithGemini throws is a GeminiError, and its
    code is one of NO_API_KEY, INVALID_INPUT, EMPTY_RESPONSE, PARSE_ERROR,
    VALIDATION_ERROR, UNKNOWN_ERROR and MAX_RETRIES: no exception of the
    transport and no TypeError of the conversion reaches the caller as it
    is. *)
Theorem analyze_throws_gemini_errors (env : Env) (contractText : jsstring)
    (maxRetriesArg : option Z) (e : Exn) :
  snd (analyzeContractWithGemini env contractText maxRetriesArg) = Throws e ->
  exists message code,
    e = GeminiError message code /\ In code analysisErrorCodes.
Proof.
  intros H.
  destruct (keyConfigured env) eqn:Hkey.
  - destruct (Z.lt_ge_cases (strlen (trim contractText)) 100) as [Hshort|Hlen].
    + destruct (analyze_preconditions_held env contractText maxRetriesArg)
        as (m & c & Hrun & Hcode); [auto|].
      rewrite Hrun in H. injection H as <-. exists m, c.
      split; [reflexivity|]. destruct Hcode as [-> | ->]; cbn; auto.
    + destruct (Z.lt_ge_cases 0 (maxRetriesOf maxRetriesArg))
        as [Hbudget|Hbudget].
      * destruct (analyze_run env contractText maxRetriesArg Hkey Hlen)
          as (k & _ & _ & Hrun); [lia|].
        rewrite Hrun in H. cbn [snd] in H.
        destruct (surfaced_attempt (model env (Z.of_nat k)))
          as [(r & Hr)|(m & c & Hthrow & Hcode)].
        -- rewrite Hr in H. discriminate.
        -- rewrite Hthrow in H. injection H as <-. exists m, c.
           split; [reflexivity|].
           destruct Hcode as [->|[->|[->| ->]]]; cbn; auto 8.
      * rewrite (analyze_without_budget env contractText maxRetriesArg
                   Hkey Hlen Hbudget) in H.
        injection H as <-. do 2 eexists. split; [reflexivity|].
        cbn; auto 8.
  - destruct (analyze_preconditions_held env contractText maxRetriesArg)
      as (m & c & Hrun & Hcode); [auto|].
    rewrite Hrun in H. injection H as <-. exists m, c.
    split; [reflexivity|]. destruct Hcode as [-> | ->]; cbn; auto.
Qed.

Lemma analyze_throws_gemini_errors_witness :
  exists message : string,
    snd (analyzeContractWithGemini nullClauseEnv sampleContract None)
    = Throws (GeminiError message "UNKNOWN_ERROR")
    /\ In "UNKNOWN_ERROR" analysisErrorCodes.
Proof.
  assert (Hrun : snd (analyzeContractWithGemini nullClauseEnv sampleContract
                        None)
                 = Throws (GeminiError
                             "Cannot read properties of null (reading 'category')"
                             "UNKNOWN_ERROR"))
    by (vm_compute; reflexivity).
  destruct (analyze_throws_gemini_errors nullClauseEnv sampleContract None _
              Hrun) as (m & c & He & Hin).
  injection He as <- <-.
  eexists. split; [exact Hrun|exact Hin].
Defined.







(** X4.  A result that analyzeContractWithGemini returns is the parse of
    the text of the first attempt that did not fail with a GeminiError:
    every attempt before it failed, it lies within the budget, and it was
    the last request. *)
Theorem result_of_first_good_attempt (env : Env) (contractText : jsstring)
    (maxRetriesArg : option Z) (r : AnalysisResult.t) :
  snd (analyzeContractWithGemini env contractText maxRetriesArg) = Returns r ->
  exists (k : nat) (text : jsstring),
    Z.of_nat k < maxRetriesOf maxRetriesArg
    /\ model env (Z.of_nat k) = Text text
    /\ parseGeminiResponse text = Returns r
    /\ (forall i : Z, 0 <= i < Z.of_nat k ->
                      isGeminiFailure (attemptBody (model env i)) = true)
    /\ requestsOf
         (fst (analyzeContractWithGemini env contractText maxRetriesArg))
       = S k.
Proof.
  intros H.
  destruct (keyConfigured env) eqn:Hkey.
  2:{ destruct (analyze_preconditions_held env contractText maxRetriesArg)
        as (m & c & Hrun & _); [auto|].
      rewrite Hrun in H. discriminate. }
  destruct (Z.lt_ge_cases (strlen (trim contractText)) 100) as [Hshort|Hlen].
  { destruct (analyze_preconditions_held env contractText maxRetriesArg)
      as (m & c & Hrun & _); [auto|].
    rewrite Hrun in H. discriminate. }
  destruct (Z.lt_ge_cases 0 (maxRetriesOf maxRetriesArg)) as [Hbudget|Hbudget].
  2:{ rewrite (analyze_without_budget env contractText maxRetriesArg
                 Hkey Hlen Hbudget) in H.
      discriminate. }
  destruct (analyze_run env contractText maxRetriesArg Hkey Hlen)
    as (k & Hk & Hfail & Hrun); [lia|].
  rewrite Hrun in H |- *. cbn [fst snd] in *.
  exists k.
  destruct (model env (Z.of_nat k)) as [text|[m|]] eqn:Hmodel;
    cbn [attemptBody surfaced] in H; try discriminate.
  exists text.
  destruct (negb (truthy (VStr text))); [discriminate|].
  destruct (parseGeminiResponse text) as [r'|[m c|m|]] eqn:Hparse;
    cbn [surfaced] in H; try discriminate.
  injection H as ->.
  repeat split; try assumption.
  change (requestsOf (GetModel :: BuildPrompt :: ?t)) with (requestsOf t).
  apply requestsOf_backoffTrace.
Qed.

Lemma result_of_first_good_attempt_witness :
  exists (r : AnalysisResult.t) (k : nat) (text : jsstring),
    snd (analyzeContractWithGemini flakyEnv sampleContract None) = Returns r
    /\ model flakyEnv (Z.of_nat k) = Text text
    /\ parseGeminiResponse text = Returns r
    /\ requestsOf (fst (analyzeContractWithGemini flakyEnv sampleContract None))
       = S k.
Proof.
  eexists.
  assert (Hrun : snd (analyzeContractWithGemini flakyEnv sampleContract None)
                 = Returns _) by (vm_compute; reflexivity).
  destruct (result_of_first_good_attempt flakyEnv sampleContract None _ Hrun)
    as (k & text & _ & Hmodel & Hparse & _ & Hrequests).
  exists k, text. repeat split; assumption.
Defined.

(** ** What a parsed response holds *)

(** X5.  In every AnalysisResult that parseGeminiResponse returns, the
    summary is a string that is not empty, the recommendations are an
    array and the score is a number: the validation carries over to the
    fields that are copied. *)
Theorem result_fields_validated (response : jsstring) (r : AnalysisResult.t) :
  parseGeminiResponse response = Returns r ->
  nonEmptyString (AnalysisResult.summary r) = true
  /\ isArray (AnalysisResult.recommendations r) = true
  /\ isNumber (AnalysisResult.overallRiskScore r) = true.
Proof.
  intros H.
  apply parseGeminiResponse_returns in H
    as (data & flagged & _ & Hvalid & _ & ->).
  rewrite validateAnalysisResult_accepts in Hvalid.
  unfold accepts in Hvalid.
  repeat match goal with
         | Hconj : (_ && _) = true |- _ => apply andb_true_iff in Hconj as [? ?]
         end.
  cbn [AnalysisResult.summary AnalysisResult.recommendations
       AnalysisResult.overallRiskScore].
  repeat split; assumption.
Qed.

Lemma result_fields_validated_witness :
  exists r : AnalysisResult.t,
    parseGeminiResponse sampleResponse = Returns r
    /\ nonEmptyString (AnalysisResult.summary r) = true
    /\ isArray (AnalysisResult.recommendations r) = true.
Proof.
  eexists.
  assert (Hparse : parseGeminiResponse sampleResponse = Returns _)
    by (vm_compute; reflexivity).
  destruct (result_fields_validated sampleResponse _ Hparse)
    as (Hsummary & Hrecs & _).
  repeat split; assumption.
Defined.

Lemma decimal_inj (a b : nat) : decimal a = decimal b -> a = b.
Proof.
  unfold decimal. intros H.
  apply (f_equal NilEmpty.uint_of_string) in H.
  rewrite !NilEmpty.usu in H. injection H as H.
  apply (f_equal Nat.of_uint) in H.
  rewrite !DecimalNat.Unsigned.of_to in H. exact H.
Qed.


Lemma mapClauses_ids (clauses : list jsvalue) :
  forall (index : nat) (flagged : list FlaggedClause.t),
    mapClauses clauses index = Returns flagged ->
    map clauseId flagged
    = map (fun i => "gemini-" ++ decimal i)%string
        (seq index (length clauses)).
Proof.
  induction clauses as [|c rest IH]; intros index flagged H.
  - injection H as <-. reflexivity.
  - cbn [mapClauses] in H.
    destruct (convertClause c index) as [fc|e] eqn:Hc; [|discriminate].
    cbn [bind] in H.
    destruct (mapClauses rest (S index)) as [fcs|e] eqn:Hrest;
      [|discriminate].
    cbn [bind] in H. injection H as <-.
    cbn [map length seq]. rewrite (IH (S index) fcs Hrest). f_equal.
    destruct c; try discriminate; injection Hc as <-; reflexivity.
Qed.

Lemma gemini_ids_NoDup (count : nat) :
  forall index : nat,
    NoDup (map (fun i => "gemini-" ++ decimal i)%string (seq index count)).
Proof.
  induction count as [|count IH]; intros index; cbn [seq map].
  - constructor.
  - constructor; [|apply IH].
    intros Hin. apply in_map_iff in Hin as (j & Hj & Hjin).
    apply in_seq in Hjin.
    injection Hj as Hj. apply decimal_inj in Hj. lia.
Qed.

(** X6.  The flagged clauses of a parsed response are numbered in the
    order in which they were declared: their ids are gemini-0, gemini-1,
    ..., so that no two flagged clauses of a result share an id. *)
Theorem flagged_ids_distinct (response : jsstring) (r : AnalysisResult.t) :
  parseGeminiResponse response = Returns r ->
  map clauseId (AnalysisResult.flaggedClauses r)
  = map (fun i => "gemini-" ++ decimal i)%string
      (seq 0 (length (AnalysisResult.flaggedClauses r)))
  /\ NoDup (map clauseId (AnalysisResult.flaggedClauses r)).
Proof.
  intros H.
  apply parseGeminiResponse_returns in H
    as (data & flagged & _ & _ & Hmap & ->).
  cbn [AnalysisResult.flaggedClauses].
  pose proof (mapClauses_ids _ 0 flagged Hmap) as Hids.
  assert (Hlen : length flagged
                 = length (elements (get data "flaggedClauses"))).
  { rewrite <- (length_map clauseId flagged), Hids, length_map, length_seq.
    reflexivity. }
  rewrite Hlen, Hids. split; [reflexivity|apply gemini_ids_NoDup].
Qed.

Lemma flagged_ids_distinct_witness :
  exists r : AnalysisResult.t,
    parseGeminiResponse inconsistentScoreResponse = Returns r
    /\ map clauseId (AnalysisResult.flaggedClauses r)
       = ["gemini-0"; "gemini-1"; "gemini-2"]
    /\ NoDup (map clauseId (AnalysisResult.flaggedClauses r)).
Proof.
  eexists.
  assert (Hparse : parseGeminiResponse inconsistentScoreResponse = Returns _)
    by (vm_compute; reflexivity).
  destruct (flagged_ids_distinct inconsistentScoreResponse _ Hparse)
    as (Hids & Hnodup).
  split; [exact Hparse|]. split; [|exact Hnodup].
  vm_compute. reflexivity.
Defined.

Lemma mapClauses_nth (clauses : list jsvalue) :
  forall (index : nat) (flagged : list FlaggedClause.t),
    mapClauses clauses index = Returns flagged ->
    forall (i : nat) (c : jsvalue),
      nth_error clauses i = Some c ->
      exists fc, convertClause c (index + i) = Returns fc
                 /\ nth_error flagged i = Some fc.
Proof.
  induction clauses as [|c0 rest IH]; intros index flagged H i c Hnth.
  - destruct i; discriminate.
  - cbn [mapClauses] in H.
    destruct (convertClause c0 index) as [fc0|e] eqn:Hc; [|discriminate].
    cbn [bind] in H.
    destruct (mapClauses rest (S index)) as [fcs|e] eqn:Hrest;
      [|discriminate].
    cbn [bind] in H. injection H as <-.
    destruct i as [|i]; cbn [nth_error] in *.
    + injection Hnth as <-. rewrite Nat.add_0_r. eauto.
    + destruct (IH (S index) fcs Hrest i c Hnth) as (fc & Hfc & Hi).
      exists fc. split; [|exact Hi].
      rewrite <- Hfc. f_equal. lia.
Qed.

(** X7.  The flagged clauses of a parsed response are the declared ones,
    as many and in the same order: the i-th carries the clauseText of the
    i-th declared clause as matched text, its violation as name, its
    explanation as description and explanation, its recommendation as AI
    insight, its category, severity, isMalicious and legalReference as
    they were declared, the position 0 and no keywords. *)
Theorem flagged_clauses_as_declared (response : jsstring)
    (r : AnalysisResult.t) :
  parseGeminiResponse response = Returns r ->
  exists data : jsvalue,
    JSON_parse (cleanedResponse response) = Some data
    /\ length (AnalysisResult.flaggedClauses r)
       = length (elements (get data "flaggedClauses"))
    /\ forall (i : nat) (c : jsvalue),
         nth_error (elements (get data "flaggedClauses")) i = Some c ->
         nth_error (AnalysisResult.flaggedClauses r) i
         = Some (FlaggedClause.mk
                   (ClausePattern.mk ("gemini-" ++ decimal i)
                      (get c "category") (get c "violation")
                      (get c "explanation") [] (get c "isMalicious")
                      (get c "severity") (get c "legalReference")
                      (get c "explanation"))
                   (get c "clauseText") 0 (get c "recommendation")).
Proof.
  intros H.
  apply parseGeminiResponse_returns in H
    as (data & flagged & Hparse & _ & Hmap & ->).
  exists data. split; [exact Hparse|].
  cbn [AnalysisResult.flaggedClauses]. split.
  - pose proof (mapClauses_ids _ 0 flagged Hmap) as Hids.
    rewrite <- (length_map clauseId flagged), Hids, length_map, length_seq.
    reflexivity.
  - intros i c Hnth.
    destruct (mapClauses_nth _ 0 flagged Hmap i c Hnth) as (fc & Hfc & Hi).
    rewrite Hi. f_equal. cbn [plus] in Hfc.
    destruct c; try discriminate; injection Hfc as <-; reflexivity.
Qed.

Lemma flagged_clauses_as_declared_witness :
  exists r : AnalysisResult.t,
    parseGeminiResponse inconsistentScoreResponse = Returns r
    /\ length (AnalysisResult.flaggedClauses r) = 3%nat
    /\ option_map FlaggedClause.matchedText
         (nth_error (AnalysisResult.flaggedClauses r) 2)
       = Some (VStr (lit "The landlord may enter at any time.")).
Proof.
  eexists.
  assert (Hparse : parseGeminiResponse inconsistentScoreResponse = Returns _)
    by (vm_compute; reflexivity).
  destruct (flagged_clauses_as_declared inconsistentScoreResponse _ Hparse)
    as (data & Hdata & Hlen & Hnth).
  assert (Hd : Some data
               = JSON_parse (cleanedResponse inconsistentScoreResponse))
    by (symmetry; exact Hdata).
  vm_compute in Hd. injection Hd as ->.
  split; [exact Hparse|]. split; [rewrite Hlen; reflexivity|].
  erewrite Hnth by (vm_compute; reflexivity).
  vm_compute. reflexivity.
Defined.

Lemma pushIf_from_field (detailsMap : jsvalue) (f : string * string * string) :
  In f keyDetailFields ->
  Forall (fun kd =>
            truthy (KeyDetail.value kd) = true
            /\ exists f' : string * string * string,
                 In f' keyDetailFields
                 /\ KeyDetail.label kd = labelOf f'
                 /\ KeyDetail.category kd = categoryOf f'
                 /\ KeyDetail.value kd = get detailsMap (fieldOf f'))
         (pushIf (get detailsMap (fieldOf f)) (labelOf f) (categoryOf f)).
Proof.
  intros Hin. unfold pushIf.
  destruct (truthy (get detailsMap (fieldOf f))) eqn:Htruthy; constructor.
  - cbn [KeyDetail.value KeyDetail.label KeyDetail.category].
    split; [exact Htruthy|]. exists f. auto.
  - constructor.
Qed.

(** X8.  Every KeyDetail entry of a parsed response comes from one of the
    eight converted fields of the declared keyDetails: it has the label
    and the category of that field and the value that was declared for
    it, and that value is truthy.  A result has at most eight entries, and
    none that the response did not declare. *)
Theorem keyDetails_only_declared (response : jsstring) (r : AnalysisResult.t) :
  parseGeminiResponse response = Returns r ->
  exists data : jsvalue,
    JSON_parse (cleanedResponse response) = Some data
    /\ Forall (fun kd =>
                 truthy (KeyDetail.value kd) = true
                 /\ exists f : string * string * string,
                      In f keyDetailFields
                      /\ KeyDetail.label kd = labelOf f
                      /\ KeyDetail.category kd = categoryOf f
                      /\ KeyDetail.value kd
                         = get (get data "keyDetails") (fieldOf f))
              (AnalysisResult.keyDetails r)
    /\ (length (AnalysisResult.keyDetails r) <= 8)%nat.
Proof.
  intros H.
  apply parseGeminiResponse_returns in H
    as (data & flagged & Hparse & _ & _ & ->).
  exists data. split; [exact Hparse|].
  cbn [AnalysisResult.keyDetails]. split.
  - unfold convertKeyDetails.
    repeat (apply Forall_app; split);
      match goal with
      | |- Forall _ (pushIf (get _ ?field) ?label ?category) =>
          apply (pushIf_from_field (get data "keyDetails")
                   (field, label, category));
          cbn; tauto
      end.
  - rewrite <- (length_map KeyDetail.label), convertKeyDetails_labels,
      length_map.
    apply (filter_length_le _ keyDetailFields).
Qed.

Lemma keyDetails_only_declared_witness :
  exists r : AnalysisResult.t,
    parseGeminiResponse sampleResponse = Returns r
    /\ Forall (fun kd => truthy (KeyDetail.value kd) = true)
         (AnalysisResult.keyDetails r)
    /\ (length (AnalysisResult.keyDetails r) <= 8)%nat.
Proof.
  eexists.
  assert (Hparse : parseGeminiResponse sampleResponse = Returns _)
    by (vm_compute; reflexivity).
  destruct (keyDetails_only_declared sampleResponse _ Hparse)
    as (data & _ & Hall & Hlen).
  split; [exact Hparse|]. split; [|exact Hlen].
  eapply Forall_impl; [|exact Hall]. intros kd [Htruthy _]. exact Htruthy.
Defined.

(** ** Responses that are not JSON *)

Lemma trimStart_allWhiteSpace (s : jsstring) :
  allWhiteSpace s = true -> trimStart s = [].
Proof.
  intros H. rewrite <- (app_nil_r s). apply (trimStart_ws_app s [] H).
Qed.

(** X9.  A reply that is not empty and holds white space only is not an
    EMPTY_RESPONSE: it passes the emptiness test, is trimmed to nothing
    and fails as PARSE_ERROR. *)
Theorem blank_reply_is_parse_error (text : jsstring) :
  text <> [] ->
  allWhiteSpace text = true ->
  attemptBody (Text text)
  = Throws (GeminiError "Failed to parse Gemini response as JSON"
                        "PARSE_ERROR").
Proof.
  intros Hne Hws. unfold attemptBody.
  destruct text as [|c text]; [contradiction|].
  cbn [truthy negb]. unfold parseGeminiResponse, cleanedResponse, trim.
  rewrite (trimStart_allWhiteSpace _ Hws). reflexivity.
Qed.

Lemma blank_reply_is_parse_error_witness :
  attemptBody (Text [32; 10; 9; 160]%N)
  = Throws (GeminiError "Failed to parse Gemini response as JSON"
                        "PARSE_ERROR")
  /\ attemptBody (Text [])
     = Throws (GeminiError "Empty response from Gemini" "EMPTY_RESPONSE").
Proof.
  split; [|reflexivity].
  apply (blank_reply_is_parse_error [32; 10; 9; 160]%N).
  - discriminate.
  - reflexivity.
Defined.

Lemma JSON_parse_bad_start (c : N) (rest : jsstring) :
  canStartJson c = false -> JSON_parse (c :: rest) = None.
Proof.
  unfold canStartJson. intros H.
  do 8 (apply orb_false_iff in H as [H ?]).
  unfold JSON_parse.
  replace (2 * length (c :: rest) + 2)%nat
    with (S (2 * length rest + 3)) by (cbn [length]; lia).
  cbn [parseValue skipWs].
  repeat match goal with
         | Hc : ?b = false |- context [if ?b then _ else _] => rewrite Hc
         end.
  unfold parseNumber, parseSign.
  repeat match goal with
         | Hc : ?b = false |- context [if ?b then _ else _] => rewrite Hc
         end.
  cbn [takeDigits].
  repeat match goal with
         | Hc : ?b = false |- context [if ?b then _ else _] => rewrite Hc
         end.
  reflexivity.
Qed.

(** X10.  A response whose first code unit after trimming is neither a
    back quote nor a code unit that a JSON text can begin with (prose
    before the answer, for instance) fails with PARSE_ERROR. *)
Theorem preamble_is_parse_error (response rest : jsstring) (c : N) :
  trim response = c :: rest ->
  (c =? 96)%N = false ->
  canStartJson c = false ->
  parseGeminiResponse response
  = Throws (GeminiError "Failed to parse Gemini response as JSON"
                        "PARSE_ERROR").
Proof.
  intros Htrim Hquote Hstart.
  unfold parseGeminiResponse, cleanedResponse. rewrite Htrim.
  change (startsWith (c :: rest) (lit "```json"))
    with ((c =? 96)%N && startsWith rest (lit "``json")).
  change (startsWith (c :: rest) (lit "```"))
    with ((c =? 96)%N && startsWith rest (lit "``")).
  rewrite Hquote. cbn [andb].
  rewrite (JSON_parse_bad_start c rest Hstart). reflexivity.
Qed.

Lemma preamble_is_parse_error_witness :
  errorCode (parseGeminiResponse
               (json " Here is the analysis: {'summary': 'ok'} "))
  = Some "PARSE_ERROR".
Proof.
  rewrite (preamble_is_parse_error
             (json " Here is the analysis: {'summary': 'ok'} ")
             (json "ere is the analysis: {'summary': 'ok'}") 72%N).
  - reflexivity.
  - vm_compute. reflexivity.
  - reflexivity.
  - reflexivity.
Defined.

(** ** The size of the prompt *)

(** X11.  The prompt has 5,323 code units of fixed text and the first
    50,000 code units of the contract at most: between 5,323 and 55,323
    code units, whatever the length of the contract. *)
Theorem prompt_size (contractText : jsstring) :
  strlen (buildAnalysisPrompt contractText)
  = 5323 + Z.min 50000 (strlen contractText)
  /\ 5323 <= strlen (buildAnalysisPrompt contractText) <= 55323.
Proof.
  pose proof (buildAnalysisPrompt_length contractText) as H.
  split; [exact H|]. unfold strlen in *. lia.
Qed.

(** X12.  Two contract texts get the same prompt exactly when their first
    50,000 code units are the same: within that range no difference
    between two contracts is lost. *)
Theorem prompt_equal_iff (a b : jsstring) :
  buildAnalysisPrompt a = buildAnalysisPrompt b
  <-> slice0 50000 a = slice0 50000 b.
Proof.
  split.
  - apply buildAnalysisPrompt_inj.
  - intros H. unfold buildAnalysisPrompt. rewrite H. reflexivity.
Qed.

(** ** The risk level of any score *)

(** X13.  On every integer score, also below 0 and above 100, getRiskLevel
    gives Low Risk exactly for 0, Moderate Risk exactly for the other
    scores below 30 (the negative ones included), High Risk exactly from
    30 to 59 and Critical Risk exactly from 60 on. *)
Theorem getRiskLevel_all_integers (score : Z) :
  (RiskLevel.label (getRiskLevel score) = "Low Risk" <-> score = 0)
  /\ (RiskLevel.label (getRiskLevel score) = "Moderate Risk"
      <-> score < 30 /\ score <> 0)
  /\ (RiskLevel.label (getRiskLevel score) = "High Risk"
      <-> 30 <= score < 60)
  /\ (RiskLevel.label (getRiskLevel score) = "Critical Risk"
      <-> 60 <= score).
Proof.
  unfold getRiskLevel.
  destruct (Z.eqb_spec score 0) as [H0|H0];
    [|destruct (Z.ltb_spec score 30) as [H30|H30];
      [|destruct (Z.ltb_spec score 60) as [H60|H60]]];
    cbn [RiskLevel.label];
    repeat split; intros; try discriminate; try lia.
Qed.

(** ** The results view *)







(** ** The severity badge *)

Lemma severityTexts_None (toUpperCase : jsstring -> jsstring)
    (clauses : list FlaggedClause.t) :
  severityTexts toUpperCase clauses = None
  <-> exists f : FlaggedClause.t,
        In f clauses /\ severityText toUpperCase f = None.
Proof.
  induction clauses as [|f rest IH]; cbn [severityTexts In].
  - split; [discriminate|]. intros (f & [] & _).
  - destruct (severityText toUpperCase f) as [s|] eqn:Hf.
    + destruct (severityTexts toUpperCase rest) as [texts|].
      * split; [discriminate|].
        intros (f' & [<-|Hin] & Hnone); [congruence|].
        assert (Hsome : Some texts = None)
          by (apply IH; exists f'; auto).
        discriminate.
      * split; [|reflexivity]. intros _.
        destruct IH as [IH _]. destruct (IH eq_refl) as (f' & Hin & Hnone).
        exists f'. auto.
    + split; [|reflexivity]. intros _. exists f. auto.
Qed.

Lemma mapClauses_In (clauses : list jsvalue) :
  forall (index : nat) (flagged : list FlaggedClause.t),
    mapClauses clauses index = Returns flagged ->
    forall f : FlaggedClause.t,
      In f flagged
      <-> exists (i : nat) (c : jsvalue),
            nth_error clauses i = Some c
            /\ convertClause c (index + i) = Returns f.
Proof.
  induction clauses as [|c0 rest IH]; intros index flagged H f.
  - injection H as <-. split; [intros []|].
    intros (i & c & Hnth & _). destruct i; discriminate.
  - cbn [mapClauses] in H.
    destruct (convertClause c0 index) as [fc0|e] eqn:Hc; [|discriminate].
    cbn [bind] in H.
    destruct (mapClauses rest (S index)) as [fcs|e] eqn:Hrest;
      [|discriminate].
    cbn [bind] in H. injection H as <-. cbn [In].
    rewrite (IH (S index) fcs Hrest f). split.
    + intros [<-|(i & c & Hnth & Hconv)].
      * exists 0%nat, c0. rewrite Nat.add_0_r. auto.
      * exists (S i), c. rewrite Nat.add_succ_r. auto.
    + intros (i & c & Hnth & Hconv). destruct i as [|i].
      * injection Hnth as <-. rewrite Nat.add_0_r in Hconv.
        left. congruence.
      * right. exists i, c. rewrite Nat.add_succ_r in Hconv. auto.
Qed.

Lemma convertClause_flags (c : jsvalue) (index : nat) (f : FlaggedClause.t) :
  convertClause c index = Returns f ->
  ClausePattern.isMalicious (FlaggedClause.clause f) = get c "isMalicious"
  /\ ClausePattern.severity (FlaggedClause.clause f) = get c "severity".
Proof.
  destruct c; cbn [convertClause]; intros H; try discriminate;
    injection H as <-; split; reflexivity.
Qed.

Lemma severityText_None (toUpperCase : jsstring -> jsstring)
    (f : FlaggedClause.t) :
  severityText toUpperCase f = None
  <-> isString (ClausePattern.severity (FlaggedClause.clause f)) = false.
Proof.
  unfold severityText.
  destruct (ClausePattern.severity (FlaggedClause.clause f)); cbn;
    split; intros H; try reflexivity; discriminate.
Qed.

(** X16.  Nothing on the way from the response to the view checks the
    severity of a clause.  Drawing the badges of the problematic clauses of
    a parsed response throws a TypeError exactly when the response declares
    a clause that is not null, has a truthy isMalicious and a severity that
    is not a string (a missing one, for instance). *)
Theorem severity_badge_throws (toUpperCase : jsstring -> jsstring)
    (response : jsstring) (r : AnalysisResult.t) :
  parseGeminiResponse response = Returns r ->
  exists data : jsvalue,
    JSON_parse (cleanedResponse response) = Some data
    /\ (severityBadges toUpperCase (AnalysisResult.flaggedClauses r) = None
        <-> exists (i : nat) (c : jsvalue),
              nth_error (elements (get data "flaggedClauses")) i = Some c
              /\ truthy (get c "isMalicious") = true
              /\ isString (get c "severity") = false).
Proof.
  intros H.
  apply parseGeminiResponse_returns in H
    as (data & flagged & Hparse & _ & Hmap & ->).
  exists data. split; [exact Hparse|].
  cbn [AnalysisResult.flaggedClauses]. unfold severityBadges.
  rewrite severityTexts_None. split.
  - intros (f & Hin & Hnone).
    apply filter_In in Hin as [Hin Hmal].
    apply (mapClauses_In _ 0 flagged Hmap) in Hin as (i & c & Hnth & Hconv).
    apply convertClause_flags in Hconv as [Hm Hs].
    apply severityText_None in Hnone.
    exists i, c. rewrite <- Hm, <- Hs. auto.
  - intros (i & c & Hnth & Hmal & Hsev).
    destruct (mapClauses_nth _ 0 flagged Hmap i c Hnth) as (f & Hconv & Hi).
    exists f. apply convertClause_flags in Hconv as [Hm Hs]. split.
    + apply filter_In. split; [eapply nth_error_In; exact Hi|].
      rewrite Hm. exact Hmal.
    + apply severityText_None. rewrite Hs. exact Hsev.
Qed.

Lemma severity_badge_throws_witness :
  exists r : AnalysisResult.t,
    parseGeminiResponse noSeverityResponse = Returns r
    /\ severityBadges (fun s => s) (AnalysisResult.flaggedClauses r) = None.
Proof.
  eexists.
  assert (Hparse : parseGeminiResponse noSeverityResponse = Returns _)
    by (vm_compute; reflexivity).
  destruct (severity_badge_throws (fun s => s) noSeverityResponse _ Hparse)
    as (data & Hdata & Hiff).
  split; [exact Hparse|].
  apply Hiff.
  assert (Hsome : Some data = JSON_parse (cleanedResponse noSeverityResponse))
    by (symmetry; exact Hdata).
  vm_compute in Hsome. injection Hsome as ->.
  exists 0%nat. eexists. split; [reflexivity|]. split; reflexivity.
Defined.

(** ** The chat *)

Lemma runChat_without_session (actions : list Action) :
  forall st : ChatState,
    chatSession st = false ->
    messages (fst (runChat st actions)) = messages st
    /\ snd (runChat st actions) = [].
Proof.
  induction actions as [|a rest IH]; intros st Hsession; [split; reflexivity|].
  cbn [runChat].
  assert (Hact : exists value,
             act st a = (mkChat (messages st) value (isLoading st) false, [])).
  { destruct a as [value|reply sent answered]; cbn [act].
    - exists value. rewrite Hsession. reflexivity.
    - exists (input st). unfold handleSendMessage. rewrite Hsession.
      cbn [negb]. rewrite orb_true_r. cbn [orb].
      destruct st; cbn in *; subst; reflexivity. }
  destruct Hact as (value & ->).
  destruct (IH (mkChat (messages st) value (isLoading st) false) eq_refl)
    as [Hm He].
  destruct (runChat (mkChat (messages st) value (isLoading st) false) rest)
    as [st2 events2].
  cbn [fst snd messages app] in *. subst events2.
  split; [exact Hm|reflexivity].
Qed.

(** X17.  Without a configured key the chat never starts: the session
    stays null, the start logs the NO_API_KEY error and shows the Chat
    Unavailable toast, and whatever the user does afterwards no message is
    shown, none is sent to the model, and the suggested questions never
    appear. *)
Theorem chat_without_key (env : Env) (now : Z) (actions : list Action) :
  keyConfigured env = false ->
  messages (fst (chat env now actions)) = []
  /\ snd (chat env now actions)
     = [ConsoleError (GeminiError "Gemini API key not configured"
                                  "NO_API_KEY");
        Toast "Chat Unavailable"]
  /\ sentMessages (snd (chat env now actions)) = []
  /\ showsSuggestions (fst (chat env now actions)) = false.
Proof.
  intros Hkey. unfold chat, initChat, createContractChatSession.
  rewrite Hkey. cbn [negb].
  destruct (runChat_without_session actions (mkChat [] [] false false)
              eq_refl) as [Hm He].
  destruct (runChat (mkChat [] [] false false) actions) as [st events].
  cbn [fst snd messages] in *. subst events.
  unfold showsSuggestions. rewrite Hm. repeat split; reflexivity.
Qed.

Lemma chat_without_key_witness :
  messages (fst (chat (mkEnv None silentModel) 0
                   [SetInput (lit "Can I get out of this lease?");
                    Send (Text (lit "Yes.")) 1 2])) = []
  /\ sentMessages (snd (chat (mkEnv None silentModel) 0
                          [SetInput (lit "Can I get out of this lease?");
                           Send (Text (lit "Yes.")) 1 2])) = [].
Proof.
  destruct (chat_without_key (mkEnv None silentModel) 0
              [SetInput (lit "Can I get out of this lease?");
               Send (Text (lit "Yes.")) 1 2] eq_refl)
    as (Hm & _ & Hs & _).
  split; assumption.
Defined.

Lemma exchanges_starts_with_user (m : ChatMessage.t)
    (rest : list ChatMessage.t) :
  exchanges (m :: rest) = true -> isUser m = true.
Proof.
  cbn [exchanges]. intros H.
  apply andb_true_iff in H as [H _]. apply andb_true_iff in H as [H _].
  exact H.
Qed.

Lemma exchanges_app_bounded (n : nat) :
  forall l more : list ChatMessage.t,
    (length l <= n)%nat ->
    exchanges l = true -> exchanges more = true ->
    exchanges (l ++ more) = true.
Proof.
  induction n as [|n IH]; intros l more Hlen Hl Hmore.
  - destruct l; [exact Hmore|cbn in Hlen; lia].
  - destruct l as [|question rest]; [exact Hmore|].
    cbn [length] in Hlen. cbn [exchanges] in Hl.
    apply andb_true_iff in Hl as [Hhead Hrest].
    cbn [app exchanges]. rewrite Hhead. cbn [andb].
    destruct rest as [|answer rest'].
    + cbn [app]. destruct more as [|m more']; [reflexivity|].
      rewrite (exchanges_starts_with_user m more' Hmore). exact Hmore.
    + cbn [app]. change (answer :: rest' ++ more)
        with ((answer :: rest') ++ more).
      cbn [length] in Hlen.
      destruct (isUser answer); apply IH; try assumption; cbn [length]; lia.
Qed.

Lemma exchanges_app (l more : list ChatMessage.t) :
  exchanges l = true -> exchanges more = true ->
  exchanges (l ++ more) = true.
Proof. apply (exchanges_app_bounded (length l)). lia. Qed.

Lemma sentMessages_app (a b : list ChatEvent) :
  sentMessages (a ++ b) = sentMessages a ++ sentMessages b.
Proof. unfold sentMessages. apply flat_map_app. Qed.

Lemma added_by_app (a1 a2 : list ChatMessage.t) (e1 e2 : list ChatEvent) :
  added_by a1 e1 -> added_by a2 e2 -> added_by (a1 ++ a2) (e1 ++ e2).
Proof.
  intros (Hx1 & Hs1 & Hc1 & He1) (Hx2 & Hs2 & Hc2 & He2).
  repeat split.
  - apply exchanges_app; assumption.
  - rewrite filter_app, map_app, sentMessages_app. congruence.
  - rewrite filter_app, sentMessages_app, !length_app. lia.
  - rewrite forallb_app, He1, He2. reflexivity.
Qed.

Lemma act_adds (st : ChatState) (a : Action) :
  chatSession st = true -> isLoading st = false ->
  chatSession (fst (act st a)) = true
  /\ isLoading (fst (act st a)) = false
  /\ exists added : list ChatMessage.t,
       messages (fst (act st a)) = messages st ++ added
       /\ added_by added (snd (act st a)).
Proof.
  intros Hsession Hloading.
  destruct a as [value|reply sent answered]; cbn [act].
  - cbn. repeat split; try assumption.
    exists []. rewrite app_nil_r. repeat split; reflexivity.
  - unfold handleSendMessage. rewrite Hsession, Hloading.
    cbn [negb]. rewrite !orb_false_r.
    destruct (truthy (VStr (trim (input st)))) eqn:Hinput; cbn [negb].
    + destruct reply as [text|[message|]]; cbn [sendChatMessage fst snd];
        cbn [chatSession isLoading messages];
        (repeat split; try assumption);
        [ exists [ChatMessage.mk user (trim (input st)) sent;
                  ChatMessage.mk assistant text answered]
        | exists [ChatMessage.mk user (trim (input st)) sent]
        | exists [ChatMessage.mk user (trim (input st)) sent] ];
        rewrite <- ?app_assoc; (split; [reflexivity|]);
        unfold added_by; cbn -[trim truthy];
        rewrite Hinput; repeat split; reflexivity.
    + cbn. repeat split; try assumption.
      exists []. rewrite app_nil_r. repeat split; reflexivity.
Qed.

Lemma runChat_adds (actions : list Action) :
  forall st : ChatState,
    chatSession st = true -> isLoading st = false ->
    isLoading (fst (runChat st actions)) = false
    /\ exists added : list ChatMessage.t,
         messages (fst (runChat st actions)) = messages st ++ added
         /\ added_by added (snd (runChat st actions)).
Proof.
  induction actions as [|a rest IH]; intros st Hsession Hloading.
  - cbn. split; [assumption|]. exists []. rewrite app_nil_r.
    repeat split; reflexivity.
  - cbn [runChat].
    destruct (act_adds st a Hsession Hloading)
      as (Hs1 & Hl1 & added1 & Hm1 & Hadd1).
    destruct (act st a) as [st1 events1]. cbn [fst snd] in *.
    destruct (IH st1 Hs1 Hl1) as (Hl2 & added2 & Hm2 & Hadd2).
    destruct (runChat st1 rest) as [st2 events2]. cbn [fst snd] in *.
    split; [assumption|].
    exists (added1 ++ added2). split.
    + rewrite Hm2, Hm1, app_assoc. reflexivity.
    + apply added_by_app; assumption.
Qed.

(** X18.  With a configured key the conversation starts with the welcome
    message and only grows by questions and answers: every message of the
    user is not empty and is exactly what was sent to the model, in the
    same order and one request each; an answer only comes directly after a
    question; every question has either its answer or a Message Failed
    toast; what is logged is a CHAT_ERROR; the component is not loading
    between actions; and the suggested questions are shown exactly as long
    as nothing was sent. *)
Theorem chat_conversation (env : Env) (now : Z) (actions : list Action) :
  keyConfigured env = true ->
  isLoading (fst (chat env now actions)) = false
  /\ exists rest : list ChatMessage.t,
       messages (fst (chat env now actions))
       = ChatMessage.mk assistant welcomeContent now :: rest
       /\ exchanges rest = true
       /\ map ChatMessage.content (filter isUser rest)
          = sentMessages (snd (chat env now actions))
       /\ (length rest
           + length (filter isFailureToast (snd (chat env now actions)))
           = 2 * length (sentMessages (snd (chat env now actions))))%nat
       /\ forallb chatErrorOnly (snd (chat env now actions)) = true
       /\ (showsSuggestions (fst (chat env now actions)) = true
           <-> sentMessages (snd (chat env now actions)) = []).
Proof.
  intros Hkey. unfold chat, initChat, createContractChatSession.
  rewrite Hkey. cbn [negb].
  destruct (runChat_adds actions
              (mkChat [ChatMessage.mk assistant welcomeContent now] []
                      false true) eq_refl eq_refl)
    as (Hloading & added & Hm & Hx & Hs & Hc & He).
  destruct (runChat (mkChat [ChatMessage.mk assistant welcomeContent now] []
                            false true) actions) as [st events].
  cbn [fst snd messages app] in *.
  split; [assumption|]. exists added.
  repeat split; try assumption.
  - unfold showsSuggestions. rewrite Hm. cbn [length Nat.eqb].
    intros Hone. apply Nat.eqb_eq in Hone.
    apply length_zero_iff_nil in Hone. subst added.
    symmetry. exact Hs.
  - intros Hnone. unfold showsSuggestions. rewrite Hm, Hnone in *.
    cbn [length] in Hc. cbn [length Nat.eqb]. apply Nat.eqb_eq. lia.
Qed.

Lemma chat_conversation_witness :
  exists rest : list ChatMessage.t,
    messages (fst (chat sampleEnv 0
                     [SetInput (lit "  Can I get out?  ");
                      Send (Failure None) 1 2;
                      Send (Text (lit "Never sent")) 3 4;
                      SetInput (lit "Again?");
                      Send (Text (lit "Yes.")) 5 6]))
    = ChatMessage.mk assistant welcomeContent 0 :: rest
    /\ map ChatMessage.content (filter isUser rest)
       = [lit "Can I get out?"; lit "Again?"].
Proof.
  destruct (chat_conversation sampleEnv 0
              [SetInput (lit "  Can I get out?  ");
               Send (Failure None) 1 2;
               Send (Text (lit "Never sent")) 3 4;
               SetInput (lit "Again?");
               Send (Text (lit "Yes.")) 5 6] eq_refl)
    as (_ & rest & Hm & _ & Hs & _).
  exists rest. split; [exact Hm|]. rewrite Hs. vm_compute. reflexivity.
Defined.

(** ** The result and the response *)

(** X19.  The result is made of five properties of the response only:
    two responses that are both parsed and declare the same summary,
    keyDetails, flaggedClauses, overallRiskScore and recommendations give
    the same result, whatever else they declare (the riskLevel, which is
    validated and then dropped, among it). *)
Theorem result_of_five_fields (a b : jsstring) (ra rb : AnalysisResult.t)
    (da db : jsvalue) :
  parseGeminiResponse a = Returns ra ->
  parseGeminiResponse b = Returns rb ->
  JSON_parse (cleanedResponse a) = Some da ->
  JSON_parse (cleanedResponse b) = Some db ->
  (forall field : string, In field resultFields ->
                          get da field = get db field) ->
  ra = rb.
Proof.
  intros Ha Hb Hda Hdb Hsame.
  apply parseGeminiResponse_returns in Ha
    as (da' & fa & Hpa & _ & Hma & ->).
  apply parseGeminiResponse_returns in Hb
    as (db' & fb & Hpb & _ & Hmb & ->).
  assert (da' = da) by congruence. assert (db' = db) by congruence.
  subst da' db'.
  assert (Hflagged : get da "flaggedClauses" = get db "flaggedClauses")
    by (apply Hsame; cbn; tauto).
  rewrite Hflagged in Hma.
  assert (fa = fb) by congruence. subst fb.
  rewrite (Hsame "summary"), (Hsame "keyDetails"),
    (Hsame "overallRiskScore"), (Hsame "recommendations")
    by (cbn; tauto).
  reflexivity.
Qed.

Lemma result_of_five_fields_witness :
  parseGeminiResponse sampleResponse
  = parseGeminiResponse sampleResponseVariant
  /\ exists da db : jsvalue,
       JSON_parse (cleanedResponse sampleResponse) = Some da
       /\ JSON_parse (cleanedResponse sampleResponseVariant) = Some db
       /\ get da "riskLevel" = VStr (lit "low")
       /\ get db "riskLevel" = VStr (lit "critical").
Proof.
  split.
  - assert (Ha : exists ra, parseGeminiResponse sampleResponse = Returns ra)
      by (eexists; vm_compute; reflexivity).
    assert (Hb : exists rb,
               parseGeminiResponse sampleResponseVariant = Returns rb)
      by (eexists; vm_compute; reflexivity).
    destruct Ha as (ra & Ha), Hb as (rb & Hb). rewrite Ha, Hb. f_equal.
    eapply (result_of_five_fields sampleResponse sampleResponseVariant
              ra rb _ _ Ha Hb).
    + vm_compute. reflexivity.
    + vm_compute. reflexivity.
    + intros field Hin. cbn [resultFields In] in Hin.
      repeat (destruct Hin as [<-|Hin]; [vm_compute; reflexivity|]).
      contradiction.
  - do 2 eexists. split; [vm_compute; reflexivity|].
    split; [vm_compute; reflexivity|]. split; vm_compute; reflexivity.
Defined.

(** ** The text of a PDF *)

Lemma allWhiteSpace_app (a b : jsstring) :
  allWhiteSpace (a ++ b) = allWhiteSpace a && allWhiteSpace b.
Proof. apply forallb_app. Qed.

Lemma allWhiteSpace_join (items : list jsstring) :
  allWhiteSpace (join (lit " ") items) = forallb allWhiteSpace items.
Proof.
  induction items as [|item rest IH]; [reflexivity|].
  destruct rest as [|item' rest'].
  - cbn [join forallb]. rewrite andb_true_r. reflexivity.
  - change (join (lit " ") (item :: item' :: rest'))
      with (item ++ lit " " ++ join (lit " ") (item' :: rest')).
    rewrite !allWhiteSpace_app, IH. reflexivity.
Qed.

Lemma allWhiteSpace_pages (pages : list (list jsstring)) :
  forall fullText : jsstring,
    allWhiteSpace
      (fold_left (fun text items => text ++ (join (lit " ") items ++ [10; 10]%N))
                 pages fullText)
    = allWhiteSpace fullText && forallb (forallb allWhiteSpace) pages.
Proof.
  induction pages as [|items rest IH]; intros fullText; cbn [fold_left forallb].
  - rewrite andb_true_r. reflexivity.
  - rewrite IH, !allWhiteSpace_app, allWhiteSpace_join.
    change (allWhiteSpace [10; 10]%N) with true.
    rewrite andb_true_r, andb_assoc. reflexivity.
Qed.

Lemma trim_allWhiteSpace (s : jsstring) :
  allWhiteSpace s = true -> trim s = [].
Proof.
  intros H. unfold trim. rewrite (trimStart_allWhiteSpace s H). reflexivity.
Qed.

(** X20.  The text of a PDF is white space only exactly when every item
    of every page is (a scanned document without a text layer, for
    instance, whatever its number of pages); the analysis of such a text
    is refused as INVALID_INPUT before anything is requested. *)
Theorem pdf_without_text_refused (env : Env) (pages : list (list jsstring))
    (maxRetriesArg : option Z) :
  keyConfigured env = true ->
  (allWhiteSpace (extractTextFromPDF pages) = true
   <-> forall items item, In items pages -> In item items ->
                          allWhiteSpace item = true)
  /\ (allWhiteSpace (extractTextFromPDF pages) = true ->
      analyzeContractWithGemini env (extractTextFromPDF pages) maxRetriesArg
      = ([], Throws (GeminiError "Contract text too short for analysis"
                                 "INVALID_INPUT"))).
Proof.
  intros Hkey. split.
  - unfold extractTextFromPDF. rewrite allWhiteSpace_pages.
    cbn [allWhiteSpace forallb andb]. rewrite forallb_forall. split.
    + intros H items item Hitems Hitem.
      specialize (H items Hitems). rewrite forallb_forall in H. auto.
    + intros H items Hitems. apply forallb_forall. intros item Hitem.
      exact (H items item Hitems Hitem).
  - intros Hws. unfold analyzeContractWithGemini.
    rewrite Hkey, (trim_allWhiteSpace _ Hws). cbn [negb].
    change (strlen [] <? 100) with true. rewrite orb_true_r. reflexivity.
Qed.

Lemma pdf_without_text_refused_witness :
  analyzeContractWithGemini sampleEnv
    (extractTextFromPDF [[]; [lit " "; []]; []]) None
  = ([], Throws (GeminiError "Contract text too short for analysis"
                             "INVALID_INPUT"))
  /\ extractTextFromPDF [[]; [lit " "; []]; []]
     = [10; 10; 32; 32; 10; 10; 10; 10]%N.
Proof.
  split; [|reflexivity].
  apply (pdf_without_text_refused sampleEnv [[]; [lit " "; []]; []] None
           eq_refl).
  reflexivity.
Defined.
